(** * battlemetrics-websocket-client: the [WSClient] class of [client.ts]

    A shallow embedding of the reconnecting WebSocket client.  The object's
    private fields and the part of the JavaScript host they alias (sockets,
    timers, the UUID source, the heap of caller-owned filter objects) are
    one record, [World]; every method and callback of the class is a
    function on worlds.  Readings of [Date.now()] and [Math.random()] are
    inputs of the handler that performs them. *)

From Stdlib Require Import ZArith QArith Qround String List Lia DecimalString.
From stdpp Require Import base decidable option list strings gmap sorting.
Import ListNotations.

Local Open Scope string_scope.
Local Open Scope Z_scope.
Local Open Scope list_scope.

(** ** JavaScript values *)

(** [filter: any].  Primitives are kept as their JSON text, objects as a
    reference into the heap.  [undefined] is what [Map.get] returns for an
    absent key.  [NaN], the one value that is not [===] to itself, has no
    JSON text and is left out. *)
Inductive any : Type :=
| Undefined
| Prim (json : string)
| Obj (ref : nat).

#[global] Instance any_eq_dec : EqDecision any.
Proof. solve_decision. Defined.

(** [a === b]: by value on primitives, by reference on objects. *)
Definition strict_eq (a b : any) : bool :=
  match a, b with
  | Undefined, Undefined => true
  | Prim x, Prim y => bool_decide (x = y)
  | Obj r, Obj r' => bool_decide (r = r')
  | _, _ => false
  end.

(** Truthiness of [string | undefined] and [number | undefined]. *)
Definition truthy_string (s : option string) : bool :=
  match s with
  | Some x => negb (bool_decide (x = EmptyString))
  | None => false
  end.

Definition truthy_number (n : option Z) : bool :=
  match n with
  | Some x => negb (Z.eqb x 0)
  | None => false
  end.

(** ** Envelopes *)

(** [interface IRTMessage], as [JSON.parse] delivers it: a field the text
    does not carry reads as [undefined] ([None]).  The payload stays the
    JSON text it was parsed from. *)
Record IRTMessage : Type := mkMsg {
  msg_i : option string;
  msg_t : option string;
  msg_c : option string;
  msg_p : option string
}.

#[global] Instance IRTMessage_eq_dec : EqDecision IRTMessage.
Proof. solve_decision. Defined.

(** The [p] member of an outbound frame, after [JSON.stringify]. *)
Inductive payload : Type :=
| PChannels (chs : list string)
| PFilter (type : string) (filter : option string)
| PToken (token : string)
| PReplay (chs : list string) (start : string)
| PNone.

(** [{ i, t, p }] as handed to [ws.send]. *)
Record Frame : Type := mkFrame {
  fi : string;
  ft : string;
  fp : payload
}.

(** [e.data] of a message event: whether [typeof e.data === "string"], and
    what [JSON.parse(e.data)] yields ([None] when it raises). *)
Record MessageData : Type := mkData {
  is_string : bool;
  parsed : option IRTMessage
}.

(** ** The host: sockets, listeners, timers *)

Inductive ReadyState : Type := CONNECTING | OPEN | CLOSING | CLOSED.

Inductive EventName : Type := EvOpen | EvClose | EvMessage | EvError.

(** The functions the class registers on a socket.  [LOnMsg] is the
    closure of [onOpen]: it captures [authId] and, through
    [joinRoomsFilter], [prevLastConnected]. *)
Inductive Listener : Type :=
| LOnOpen
| LOnClose
| LOnMessage
| LRetryConnection
| LOnMsg (authId : string) (prevLastConnected : option Z).

#[global] Instance ReadyState_eq_dec : EqDecision ReadyState.
Proof. solve_decision. Defined.
#[global] Instance EventName_eq_dec : EqDecision EventName.
Proof. solve_decision. Defined.
#[global] Instance Listener_eq_dec : EqDecision Listener.
Proof. solve_decision. Defined.

Record Socket : Type := mkSocket {
  readyState : ReadyState;
  listeners : list (EventName * Listener)
}.

(** The two timer callbacks of the class.  A timer handle is a key of the
    host's timer table; whatever [setTimeout] returns is truthy, so the
    tests [if (this.reconnectTimeout)] and [if (this.monitorInterval)] are
    tests for [Some]. *)
Inductive TimerCb : Type := CbReconnect | CbMonitor.

Record Timer : Type := mkTimer {
  callback : TimerCb;
  delay_ms : Z
}.

(** What [console.log] prints. *)
Inductive Diag : Type :=
| WillReplay
| NoReplay (lastConnectedAgo : option Z)
| Stalled.

(** ** The world *)

Record World : Type := mkWorld {
  (* fields of WSClient *)
  ws : option nat;
  lastPing : option Z;
  monitorInterval : option nat;
  reconnectTimeout : option nat;
  lastMessage : option string;
  lastConnected : option Z;
  channels : list string;
  filters : list (string * any);
  retryDelay : Z;
  replayMaxTime : Z;
  (* host state *)
  sockets : gmap nat Socket;
  next_socket : nat;
  timers : gmap nat Timer;
  next_timer : nat;
  uuid_seed : nat;
  heap : gmap nat string;
  suspended : list (option Z);
  (* observable output *)
  wire : list (nat * Frame);
  emitted : list IRTMessage;
  console : list Diag
}.

(** Field assignment, one function per mutable field. *)
Definition set_ws (v : option nat) (w : World) : World :=
  {| ws := v;
     lastPing := lastPing w;
     monitorInterval := monitorInterval w;
     reconnectTimeout := reconnectTimeout w;
     lastMessage := lastMessage w;
     lastConnected := lastConnected w;
     channels := channels w;
     filters := filters w;
     retryDelay := retryDelay w;
     replayMaxTime := replayMaxTime w;
     sockets := sockets w;
     next_socket := next_socket w;
     timers := timers w;
     next_timer := next_timer w;
     uuid_seed := uuid_seed w;
     heap := heap w;
     suspended := suspended w;
     wire := wire w;
     emitted := emitted w;
     console := console w |}.

Definition set_lastPing (v : option Z) (w : World) : World :=
  {| ws := ws w;
     lastPing := v;
     monitorInterval := monitorInterval w;
     reconnectTimeout := reconnectTimeout w;
     lastMessage := lastMessage w;
     lastConnected := lastConnected w;
     channels := channels w;
     filters := filters w;
     retryDelay := retryDelay w;
     replayMaxTime := replayMaxTime w;
     sockets := sockets w;
     next_socket := next_socket w;
     timers := timers w;
     next_timer := next_timer w;
     uuid_seed := uuid_seed w;
     heap := heap w;
     suspended := suspended w;
     wire := wire w;
     emitted := emitted w;
     console := console w |}.

Definition set_monitorInterval (v : option nat) (w : World) : World :=
  {| ws := ws w;
     lastPing := lastPing w;
     monitorInterval := v;
     reconnectTimeout := reconnectTimeout w;
     lastMessage := lastMessage w;
     lastConnected := lastConnected w;
     channels := channels w;
     filters := filters w;
     retryDelay := retryDelay w;
     replayMaxTime := replayMaxTime w;
     sockets := sockets w;
     next_socket := next_socket w;
     timers := timers w;
     next_timer := next_timer w;
     uuid_seed := uuid_seed w;
     heap := heap w;
     suspended := suspended w;
     wire := wire w;
     emitted := emitted w;
     console := console w |}.

Definition set_reconnectTimeout (v : option nat) (w : World) : World :=
  {| ws := ws w;
     lastPing := lastPing w;
     monitorInterval := monitorInterval w;
     reconnectTimeout := v;
     lastMessage := lastMessage w;
     lastConnected := lastConnected w;
     channels := channels w;
     filters := filters w;
     retryDelay := retryDelay w;
     replayMaxTime := replayMaxTime w;
     sockets := sockets w;
     next_socket := next_socket w;
     timers := timers w;
     next_timer := next_timer w;
     uuid_seed := uuid_seed w;
     heap := heap w;
     suspended := suspended w;
     wire := wire w;
     emitted := emitted w;
     console := console w |}.

Definition set_lastMessage (v : option string) (w : World) : World :=
  {| ws := ws w;
     lastPing := lastPing w;
     monitorInterval := monitorInterval w;
     reconnectTimeout := reconnectTimeout w;
     lastMessage := v;
     lastConnected := lastConnected w;
     channels := channels w;
     filters := filters w;
     retryDelay := retryDelay w;
     replayMaxTime := replayMaxTime w;
     sockets := sockets w;
     next_socket := next_socket w;
     timers := timers w;
     next_timer := next_timer w;
     uuid_seed := uuid_seed w;
     heap := heap w;
     suspended := suspended w;
     wire := wire w;
     emitted := emitted w;
     console := console w |}.

Definition set_lastConnected (v : option Z) (w : World) : World :=
  {| ws := ws w;
     lastPing := lastPing w;
     monitorInterval := monitorInterval w;
     reconnectTimeout := reconnectTimeout w;
     lastMessage := lastMessage w;
     lastConnected := v;
     channels := channels w;
     filters := filters w;
     retryDelay := retryDelay w;
     replayMaxTime := replayMaxTime w;
     sockets := sockets w;
     next_socket := next_socket w;
     timers := timers w;
     next_timer := next_timer w;
     uuid_seed := uuid_seed w;
     heap := heap w;
     suspended := suspended w;
     wire := wire w;
     emitted := emitted w;
     console := console w |}.

Definition set_channels (v : list string) (w : World) : World :=
  {| ws := ws w;
     lastPing := lastPing w;
     monitorInterval := monitorInterval w;
     reconnectTimeout := reconnectTimeout w;
     lastMessage := lastMessage w;
     lastConnected := lastConnected w;
     channels := v;
     filters := filters w;
     retryDelay := retryDelay w;
     replayMaxTime := replayMaxTime w;
     sockets := sockets w;
     next_socket := next_socket w;
     timers := timers w;
     next_timer := next_timer w;
     uuid_seed := uuid_seed w;
     heap := heap w;
     suspended := suspended w;
     wire := wire w;
     emitted := emitted w;
     console := console w |}.

Definition set_filters (v : list (string * any)) (w : World) : World :=
  {| ws := ws w;
     lastPing := lastPing w;
     monitorInterval := monitorInterval w;
     reconnectTimeout := reconnectTimeout w;
     lastMessage := lastMessage w;
     lastConnected := lastConnected w;
     channels := channels w;
     filters := v;
     retryDelay := retryDelay w;
     replayMaxTime := replayMaxTime w;
     sockets := sockets w;
     next_socket := next_socket w;
     timers := timers w;
     next_timer := next_timer w;
     uuid_seed := uuid_seed w;
     heap := heap w;
     suspended := suspended w;
     wire := wire w;
     emitted := emitted w;
     console := console w |}.

Definition set_retryDelay (v : Z) (w : World) : World :=
  {| ws := ws w;
     lastPing := lastPing w;
     monitorInterval := monitorInterval w;
     reconnectTimeout := reconnectTimeout w;
     lastMessage := lastMessage w;
     lastConnected := lastConnected w;
     channels := channels w;
     filters := filters w;
     retryDelay := v;
     replayMaxTime := replayMaxTime w;
     sockets := sockets w;
     next_socket := next_socket w;
     timers := timers w;
     next_timer := next_timer w;
     uuid_seed := uuid_seed w;
     heap := heap w;
     suspended := suspended w;
     wire := wire w;
     emitted := emitted w;
     console := console w |}.

Definition set_sockets (v : gmap nat Socket) (w : World) : World :=
  {| ws := ws w;
     lastPing := lastPing w;
     monitorInterval := monitorInterval w;
     reconnectTimeout := reconnectTimeout w;
     lastMessage := lastMessage w;
     lastConnected := lastConnected w;
     channels := channels w;
     filters := filters w;
     retryDelay := retryDelay w;
     replayMaxTime := replayMaxTime w;
     sockets := v;
     next_socket := next_socket w;
     timers := timers w;
     next_timer := next_timer w;
     uuid_seed := uuid_seed w;
     heap := heap w;
     suspended := suspended w;
     wire := wire w;
     emitted := emitted w;
     console := console w |}.

Definition set_next_socket (v : nat) (w : World) : World :=
  {| ws := ws w;
     lastPing := lastPing w;
     monitorInterval := monitorInterval w;
     reconnectTimeout := reconnectTimeout w;
     lastMessage := lastMessage w;
     lastConnected := lastConnected w;
     channels := channels w;
     filters := filters w;
     retryDelay := retryDelay w;
     replayMaxTime := replayMaxTime w;
     sockets := sockets w;
     next_socket := v;
     timers := timers w;
     next_timer := next_timer w;
     uuid_seed := uuid_seed w;
     heap := heap w;
     suspended := suspended w;
     wire := wire w;
     emitted := emitted w;
     console := console w |}.

Definition set_timers (v : gmap nat Timer) (w : World) : World :=
  {| ws := ws w;
     lastPing := lastPing w;
     monitorInterval := monitorInterval w;
     reconnectTimeout := reconnectTimeout w;
     lastMessage := lastMessage w;
     lastConnected := lastConnected w;
     channels := channels w;
     filters := filters w;
     retryDelay := retryDelay w;
     replayMaxTime := replayMaxTime w;
     sockets := sockets w;
     next_socket := next_socket w;
     timers := v;
     next_timer := next_timer w;
     uuid_seed := uuid_seed w;
     heap := heap w;
     suspended := suspended w;
     wire := wire w;
     emitted := emitted w;
     console := console w |}.

Definition set_next_timer (v : nat) (w : World) : World :=
  {| ws := ws w;
     lastPing := lastPing w;
     monitorInterval := monitorInterval w;
     reconnectTimeout := reconnectTimeout w;
     lastMessage := lastMessage w;
     lastConnected := lastConnected w;
     channels := channels w;
     filters := filters w;
     retryDelay := retryDelay w;
     replayMaxTime := replayMaxTime w;
     sockets := sockets w;
     next_socket := next_socket w;
     timers := timers w;
     next_timer := v;
     uuid_seed := uuid_seed w;
     heap := heap w;
     suspended := suspended w;
     wire := wire w;
     emitted := emitted w;
     console := console w |}.

Definition set_uuid_seed (v : nat) (w : World) : World :=
  {| ws := ws w;
     lastPing := lastPing w;
     monitorInterval := monitorInterval w;
     reconnectTimeout := reconnectTimeout w;
     lastMessage := lastMessage w;
     lastConnected := lastConnected w;
     channels := channels w;
     filters := filters w;
     retryDelay := retryDelay w;
     replayMaxTime := replayMaxTime w;
     sockets := sockets w;
     next_socket := next_socket w;
     timers := timers w;
     next_timer := next_timer w;
     uuid_seed := v;
     heap := heap w;
     suspended := suspended w;
     wire := wire w;
     emitted := emitted w;
     console := console w |}.

Definition set_heap (v : gmap nat string) (w : World) : World :=
  {| ws := ws w;
     lastPing := lastPing w;
     monitorInterval := monitorInterval w;
     reconnectTimeout := reconnectTimeout w;
     lastMessage := lastMessage w;
     lastConnected := lastConnected w;
     channels := channels w;
     filters := filters w;
     retryDelay := retryDelay w;
     replayMaxTime := replayMaxTime w;
     sockets := sockets w;
     next_socket := next_socket w;
     timers := timers w;
     next_timer := next_timer w;
     uuid_seed := uuid_seed w;
     heap := v;
     suspended := suspended w;
     wire := wire w;
     emitted := emitted w;
     console := console w |}.

Definition set_suspended (v : list (option Z)) (w : World) : World :=
  {| ws := ws w;
     lastPing := lastPing w;
     monitorInterval := monitorInterval w;
     reconnectTimeout := reconnectTimeout w;
     lastMessage := lastMessage w;
     lastConnected := lastConnected w;
     channels := channels w;
     filters := filters w;
     retryDelay := retryDelay w;
     replayMaxTime := replayMaxTime w;
     sockets := sockets w;
     next_socket := next_socket w;
     timers := timers w;
     next_timer := next_timer w;
     uuid_seed := uuid_seed w;
     heap := heap w;
     suspended := v;
     wire := wire w;
     emitted := emitted w;
     console := console w |}.

Definition set_wire (v : list (nat * Frame)) (w : World) : World :=
  {| ws := ws w;
     lastPing := lastPing w;
     monitorInterval := monitorInterval w;
     reconnectTimeout := reconnectTimeout w;
     lastMessage := lastMessage w;
     lastConnected := lastConnected w;
     channels := channels w;
     filters := filters w;
     retryDelay := retryDelay w;
     replayMaxTime := replayMaxTime w;
     sockets := sockets w;
     next_socket := next_socket w;
     timers := timers w;
     next_timer := next_timer w;
     uuid_seed := uuid_seed w;
     heap := heap w;
     suspended := suspended w;
     wire := v;
     emitted := emitted w;
     console := console w |}.

Definition set_emitted (v : list IRTMessage) (w : World) : World :=
  {| ws := ws w;
     lastPing := lastPing w;
     monitorInterval := monitorInterval w;
     reconnectTimeout := reconnectTimeout w;
     lastMessage := lastMessage w;
     lastConnected := lastConnected w;
     channels := channels w;
     filters := filters w;
     retryDelay := retryDelay w;
     replayMaxTime := replayMaxTime w;
     sockets := sockets w;
     next_socket := next_socket w;
     timers := timers w;
     next_timer := next_timer w;
     uuid_seed := uuid_seed w;
     heap := heap w;
     suspended := suspended w;
     wire := wire w;
     emitted := v;
     console := console w |}.

Definition set_console (v : list Diag) (w : World) : World :=
  {| ws := ws w;
     lastPing := lastPing w;
     monitorInterval := monitorInterval w;
     reconnectTimeout := reconnectTimeout w;
     lastMessage := lastMessage w;
     lastConnected := lastConnected w;
     channels := channels w;
     filters := filters w;
     retryDelay := retryDelay w;
     replayMaxTime := replayMaxTime w;
     sockets := sockets w;
     next_socket := next_socket w;
     timers := timers w;
     next_timer := next_timer w;
     uuid_seed := uuid_seed w;
     heap := heap w;
     suspended := suspended w;
     wire := wire w;
     emitted := emitted w;
     console := v |}.

(** ** Host primitives *)

(** [uuid()]: the [n]-th identifier the generator hands out. *)
Definition uuid_of (n : nat) : string :=
  String.append "uuid-" (NilEmpty.string_of_uint (Nat.to_uint n)).

(** [this.ws && this.ws.readyState === WebSocket.OPEN], returning the
    socket the handle names when the test passes. *)
Definition ws_open (w : World) : option nat :=
  match ws w with
  | Some k =>
      match sockets w !! k with
      | Some s => if decide (readyState s = OPEN) then Some k else None
      | None => None
      end
  | None => None
  end.

(** [ws.send(JSON.stringify({ i: uuid(), t, p }))] on an open socket. *)
Definition send (k : nat) (t : string) (p : payload) (w : World) : World :=
  set_wire (wire w ++ [(k, mkFrame (uuid_of (uuid_seed w)) t p)])
    (set_uuid_seed (S (uuid_seed w)) w).

(** How [JSON.stringify] renders a [filter] member: an [undefined] member
    is dropped, an object is rendered from its current content. *)
Definition stringify (h : gmap nat string) (v : any) : option string :=
  match v with
  | Undefined => None
  | Prim j => Some j
  | Obj r => h !! r
  end.

Definition on_socket (f : Socket -> Socket) (k : nat) (w : World) : World :=
  set_sockets (alter f k (sockets w)) w.

Definition addEventListener (k : nat) (ev : EventName) (l : Listener)
    (w : World) : World :=
  on_socket (fun s => mkSocket (readyState s) (listeners s ++ [(ev, l)])) k w.

Fixpoint remove_first (x : EventName * Listener)
    (ls : list (EventName * Listener)) : list (EventName * Listener) :=
  match ls with
  | [] => []
  | y :: ls' => if decide (y = x) then ls' else y :: remove_first x ls'
  end.

Definition removeEventListener (k : nat) (ev : EventName) (l : Listener)
    (w : World) : World :=
  on_socket (fun s => mkSocket (readyState s) (remove_first (ev, l) (listeners s))) k w.

(** [ws.close()]: a socket that is not yet closed starts closing. *)
Definition sock_close (k : nat) (w : World) : World :=
  on_socket (fun s =>
    mkSocket (if decide (readyState s = CLOSED) then CLOSED else CLOSING)
             (listeners s)) k w.

(** [new WebSocket(url)]. *)
Definition new_WebSocket (w : World) : nat * World :=
  let k := next_socket w in
  (k, set_next_socket (S k)
        (set_sockets (<[k := mkSocket CONNECTING []]> (sockets w)) w)).

Definition setTimeout (cb : TimerCb) (ms : Z) (w : World) : nat * World :=
  let h := next_timer w in
  (h, set_next_timer (S h)
        (set_timers (<[h := mkTimer cb ms]> (timers w)) w)).

(** [clearTimeout] and [clearInterval] cancel the same table of timers. *)
Definition clearTimeout (h : nat) (w : World) : World :=
  set_timers (delete h (timers w)) w.

Definition log (d : Diag) (w : World) : World :=
  set_console (console w ++ [d]) w.

(** ** [Map<string, any>] and [Set<string>], in insertion order *)

Fixpoint Map_get (m : list (string * any)) (key : string) : any :=
  match m with
  | [] => Undefined
  | (k, v) :: m' => if decide (k = key) then v else Map_get m' key
  end.

Fixpoint Map_set (m : list (string * any)) (key : string) (v : any)
    : list (string * any) :=
  match m with
  | [] => [(key, v)]
  | (k, v') :: m' =>
      if decide (k = key) then (key, v) :: m' else (k, v') :: Map_set m' key v
  end.

Definition Set_has (s : list string) (x : string) : bool :=
  bool_decide (x ∈ s).

Definition Set_add (s : list string) (x : string) : list string :=
  if Set_has s x then s else s ++ [x].

Fixpoint Set_delete (s : list string) (x : string) : list string :=
  match s with
  | [] => []
  | y :: s' => if decide (y = x) then Set_delete s' x else y :: Set_delete s' x
  end.

(** ** The class *)

Module WSClient.

(** [new WSClient(getAccessToken, replayMaxTime)]. *)
Definition constructor (replayMaxTime : Z) : World :=
  {| ws := None; lastPing := None; monitorInterval := None;
     reconnectTimeout := None; lastMessage := None; lastConnected := None;
     channels := []; filters := []; retryDelay := 0;
     replayMaxTime := replayMaxTime;
     sockets := ∅; next_socket := 0; timers := ∅; next_timer := 0;
     uuid_seed := 0; heap := ∅; suspended := [];
     wire := []; emitted := []; console := [] |}.

Definition join (channel : string) (w : World) : World :=
  if Set_has (channels w) channel then w
  else
    let w := set_channels (Set_add (channels w) channel) w in
    match ws_open w with
    | Some k => send k "join" (PChannels [channel]) w
    | None => w
    end.

Definition leave (channel : string) (w : World) : World :=
  let w := set_channels (Set_delete (channels w) channel) w in
  match ws_open w with
  | Some k => send k "leave" (PChannels [channel]) w
  | None => w
  end.

Definition filter (type : string) (filter : any) (w : World) : World :=
  if strict_eq (Map_get (filters w) type) filter then w
  else
    let w := set_filters (Map_set (filters w) type filter) w in
    match ws_open w with
    | Some k => send k "filter" (PFilter type (stringify (heap w) filter)) w
    | None => w
    end.

Definition close (w : World) : World :=
  match ws w with
  | Some k =>
      let w := removeEventListener k EvClose LOnClose w in
      let w := removeEventListener k EvOpen LOnOpen w in
      let w := removeEventListener k EvMessage LOnMessage w in
      let w := removeEventListener k EvError LRetryConnection w in
      let w := sock_close k w in
      let w := set_ws None w in
      match reconnectTimeout w with
      | Some h => set_reconnectTimeout None (clearTimeout h w)
      | None => w
      end
  | None => w
  end.

Definition setupConnection (w : World) : World :=
  let '(k, w) := new_WebSocket w in
  let w := set_ws (Some k) w in
  let w := addEventListener k EvOpen LOnOpen w in
  let w := addEventListener k EvClose LOnClose w in
  let w := addEventListener k EvMessage LOnMessage w in
  addEventListener k EvError LRetryConnection w.

Definition open (w : World) : World :=
  match ws w with
  | None =>
      let w := setupConnection w in
      match reconnectTimeout w with
      | Some h => set_reconnectTimeout None (clearTimeout h w)
      | None => w
      end
  | Some _ => w
  end.

(** The callback [retryConnection] hands to [setTimeout]. *)
Definition reconnect_fires (w : World) : World :=
  setupConnection (set_reconnectTimeout None w).

(** [rnd] is the reading of [Math.random()]. *)
Definition retryConnection (rnd : Q) (w : World) : World :=
  let w := match reconnectTimeout w with
           | Some h => clearTimeout h w
           | None => w
           end in
  let '(h, w) := setTimeout CbReconnect (retryDelay w * 1000) w in
  let w := set_reconnectTimeout (Some h) w in
  set_retryDelay (Z.min 60 (retryDelay w + (Qfloor (rnd * 6) + 5))) w.

Definition monitorConnection (w : World) : World :=
  let w := match monitorInterval w with
           | Some h => clearTimeout h w
           | None => w
           end in
  let '(h, w) := setTimeout CbMonitor 30000 w in
  set_monitorInterval (Some h) w.

(** The callback [monitorConnection] hands to [setTimeout]. *)
Definition monitor_fires (now : Z) (w : World) : World :=
  let w := match ws_open w with
           | Some k => send k "ping" PNone w
           | None => w
           end in
  let w := if truthy_number (lastPing w)
              && Z.ltb (default 0 (lastPing w)) (now - 60000)
           then
             let w := log Stalled w in
             match ws_open w with
             | Some _ => open (close w)
             | None => w
             end
           else w in
  monitorConnection w.

(** The closure [joinRoomsFilter] of [onOpen]; [prevLastConnected] is the
    variable it captures. *)
Definition joinRoomsFilter (prevLastConnected : option Z) (now : Z)
    (w : World) : World :=
  match ws_open w with
  | Some k =>
      let w := fold_left
                 (fun w e => send k "filter"
                               (PFilter (fst e) (stringify (heap w) (snd e))) w)
                 (filters w) w in
      let w := send k "join" (PChannels (channels w)) w in
      if truthy_string (lastMessage w)
         && truthy_number prevLastConnected
         && Z.ltb (now - default 0 prevLastConnected) (replayMaxTime w)
      then
        let w := log WillReplay w in
        send k "replay"
          (PReplay (channels w) (default EmptyString (lastMessage w))) w
      else
        log (NoReplay (if truthy_number prevLastConnected
                       then Some (now - default 0 prevLastConnected)
                       else None)) w
  | None => w
  end.

(** [onOpen] up to its [await]: the rest of the body is parked in
    [suspended] together with the [prevLastConnected] it captured. *)
Definition onOpen (now : Z) (w : World) : World :=
  let prevLastConnected := lastConnected w in
  let w := set_lastConnected (Some now) w in
  let w := set_lastPing (Some now) w in
  let w := set_retryDelay 0 w in
  let w := monitorConnection w in
  match ws_open w with
  | Some _ => set_suspended (suspended w ++ [prevLastConnected]) w
  | None => w
  end.

(** [onOpen] after [await this.getAccessToken()] has produced [token].
    The auth frame is sent without renewing the readiness test: with no
    handle the member access raises, on a connecting socket [send]
    raises, and on a closing socket nothing is transmitted. *)
Definition onOpen_resume (prevLastConnected : option Z)
    (token : option string) (now : Z) (w : World) : World :=
  if truthy_string token then
    let authId := uuid_of (uuid_seed w) in
    let w := set_uuid_seed (S (uuid_seed w)) w in
    match ws w with
    | Some k =>
        match readyState <$> sockets w !! k with
        | Some OPEN =>
            let w := set_wire
                       (wire w ++ [(k, mkFrame authId "auth" (PToken (default EmptyString token)))])
                       w in
            addEventListener k EvMessage (LOnMsg authId prevLastConnected) w
        | Some CONNECTING => w
        | Some _ =>
            addEventListener k EvMessage (LOnMsg authId prevLastConnected) w
        | None => w
        end
    | None => w
    end
  else joinRoomsFilter prevLastConnected now w.

(** The transient listener [onMsg] installed by [onOpen]. *)
Definition onMsg (authId : string) (prevLastConnected : option Z)
    (now : Z) (d : MessageData) (w : World) : World :=
  match parsed d with
  | Some msg =>
      if bool_decide (msg_i msg = Some authId) then
        let w := match ws w with
                 | Some k =>
                     removeEventListener k EvMessage
                       (LOnMsg authId prevLastConnected) w
                 | None => w
                 end in
        joinRoomsFilter prevLastConnected now w
      else w
  | None => w
  end.

Definition onClose (rnd : Q) (w : World) : World :=
  let w := set_ws None w in
  let w := match monitorInterval w with
           | Some h => set_monitorInterval None (clearTimeout h w)
           | None => w
           end in
  retryConnection rnd w.

Definition onMessage (now : Z) (d : MessageData) (w : World) : World :=
  let w := set_lastPing (Some now) w in
  if is_string d then
    match parsed d with
    | Some msg =>
        let w := if truthy_string (msg_i msg)
                    && negb (bool_decide (msg_t msg = Some "error"))
                    && negb (bool_decide (msg_t msg = Some "ack"))
                 then set_lastMessage (msg_i msg) w
                 else w in
        if bool_decide (msg_t msg = Some "ack") then w
        else set_emitted (emitted w ++ [msg]) w
    | None => w
    end
  else w.

End WSClient.

(** ** The event loop *)

(** What the host reads for a handler: [Date.now()] and [Math.random()]. *)
Record Oracle : Type := mkOracle {
  now : Z;
  random : Q
}.

(** One turn of the event loop. *)
Inductive Input : Type :=
| Call_open
| Call_close
| Call_join (channel : string)
| Call_leave (channel : string)
| Call_filter (type : string) (filter : any)
| Sock_open (k : nat)
| Sock_close (k : nat)
| Sock_error (k : nat)
| Sock_message (k : nat) (d : MessageData)
| Timer_fires (h : nat)
| Token_resolves (n : nat) (token : option string)
| Heap_write (ref : nat) (content : string).

Definition invoke (l : Listener) (o : Oracle) (d : MessageData)
    (w : World) : World :=
  match l with
  | LOnOpen => WSClient.onOpen (now o) w
  | LOnClose => WSClient.onClose (random o) w
  | LOnMessage => WSClient.onMessage (now o) d w
  | LRetryConnection => WSClient.retryConnection (random o) w
  | LOnMsg authId prev => WSClient.onMsg authId prev (now o) d w
  end.

(** [socket.emit(ev, e)]: the listeners registered for [ev] when the
    event is raised run in registration order. *)
Definition emit (k : nat) (ev : EventName) (o : Oracle) (d : MessageData)
    (w : World) : World :=
  match sockets w !! k with
  | Some s =>
      fold_left
        (fun w r => if decide (fst r = ev) then invoke (snd r) o d w else w)
        (listeners s) w
  | None => w
  end.

Definition no_data : MessageData := mkData false None.

Definition set_readyState (k : nat) (r : ReadyState) (w : World) : World :=
  on_socket (fun s => mkSocket r (listeners s)) k w.

Definition step (o : Oracle) (i : Input) (w : World) : World :=
  match i with
  | Call_open => WSClient.open w
  | Call_close => WSClient.close w
  | Call_join c => WSClient.join c w
  | Call_leave c => WSClient.leave c w
  | Call_filter t f => WSClient.filter t f w
  | Sock_open k =>
      match readyState <$> sockets w !! k with
      | Some CONNECTING => emit k EvOpen o no_data (set_readyState k OPEN w)
      | _ => w
      end
  | Sock_close k =>
      match readyState <$> sockets w !! k with
      | Some CLOSED | None => w
      | Some _ => emit k EvClose o no_data (set_readyState k CLOSED w)
      end
  | Sock_error k =>
      match readyState <$> sockets w !! k with
      | Some CLOSED | None => w
      | Some _ => emit k EvError o no_data (set_readyState k CLOSING w)
      end
  | Sock_message k d =>
      match readyState <$> sockets w !! k with
      | Some OPEN => emit k EvMessage o d w
      | _ => w
      end
  | Timer_fires h =>
      match timers w !! h with
      | Some t =>
          let w := set_timers (delete h (timers w)) w in
          match callback t with
          | CbReconnect => WSClient.reconnect_fires w
          | CbMonitor => WSClient.monitor_fires (now o) w
          end
      | None => w
      end
  | Token_resolves n token =>
      match suspended w !! n with
      | Some prev =>
          WSClient.onOpen_resume prev token (now o)
            (set_suspended (delete n (suspended w)) w)
      | None => w
      end
  | Heap_write r content => set_heap (<[r := content]> (heap w)) w
  end.

(** A run: the inputs of successive turns, each with its oracle. *)
Fixpoint run (tr : list (Oracle * Input)) (w : World) : World :=
  match tr with
  | [] => w
  | (o, i) :: tr' => run tr' (step o i w)
  end.

(** ** Vocabulary of the statements *)

(** An inbound text frame that parses to [msg]. *)
Definition text_frame (msg : IRTMessage) : MessageData := mkData true (Some msg).

(** The frame types the client itself consumes. *)
Definition is_ack (msg : IRTMessage) : bool := bool_decide (msg_t msg = Some "ack").
Definition is_error (msg : IRTMessage) : bool := bool_decide (msg_t msg = Some "error").

(** A sample session, as [index.ts] drives it: the caller owns two filter
    objects of equal content, opens the client, the socket opens, and the
    token provider answers [undefined]. *)
Definition at_time (t : Z) : Oracle := mkOracle t (1 # 2).

Definition playerMessages : string :=
  "{tagTypeMode:and,tags:{},types:{whitelist:[playerMessage]}}".

Definition session_start : list (Oracle * Input) :=
  [ (at_time 1000, Heap_write 1 playerMessages);
    (at_time 1000, Heap_write 2 playerMessages);
    (at_time 1000, Call_open);
    (at_time 1001, Call_join "server:events:1");
    (at_time 1002, Call_join "server:updates:1");
    (at_time 1250, Sock_open 0);
    (at_time 1251, Token_resolves 0 None) ].

Definition connected_world : World :=
  run session_start (WSClient.constructor 300000).

(** The listeners [setupConnection] registers, in registration order. *)
Definition lifecycle_listeners : list (EventName * Listener) :=
  [(EvOpen, LOnOpen); (EvClose, LOnClose); (EvMessage, LOnMessage);
   (EvError, LRetryConnection)].

(** The sample session after the server has dropped the connection. *)
Definition disconnected_world : World :=
  run [(at_time 9000, Sock_close 0)] connected_world.

(** *** Backoff *)

(** The increment [Math.floor(Math.random() * 6) + 5]. *)
Definition jitter (rnd : Q) : Z := Qfloor (rnd * 6) + 5.

(** What [Math.random()] may return. *)
Definition unit_interval (x : Q) : Prop := (0 <= x)%Q ∧ (x < 1)%Q.

(** The two ways the transport reports a failure, and the handler each
    one reaches. *)
Inductive Failure : Type := Unsolicited_close | Transport_error.

Definition fail (f : Failure) (rnd : Q) (w : World) : World :=
  match f with
  | Unsolicited_close => WSClient.onClose rnd w
  | Transport_error => WSClient.retryConnection rnd w
  end.

(** The delay of the timer [reconnectTimeout] names, while it is pending. *)
Definition pending_reconnect_delay (w : World) : option Z :=
  h ← reconnectTimeout w; t ← timers w !! h; Some (delay_ms t).

Definition fire_reconnect (w : World) : World :=
  match reconnectTimeout w with
  | Some h => step (mkOracle 0 0) (Timer_fires h) w
  | None => w
  end.

(** A failure streak: failures in a row with no successful open between
    them.  Each entry gives the kind of failure, the random reading, and
    whether the scheduled attempt fired before the next failure.  The
    result lists the delay scheduled by each failure. *)
Fixpoint streak (fs : list (Failure * Q * bool)) (w : World) : list (option Z) :=
  match fs with
  | [] => []
  | (f, rnd, fired) :: fs' =>
      let w1 := fail f rnd w in
      pending_reconnect_delay w1
        :: streak fs' (if fired : bool then fire_reconnect w1 else w1)
  end.

(** [ds] starts at [d] and each next delay is [min 60 (d + r)] for some
    [r] in [5,10]. *)
Fixpoint backoff_chain (d : Z) (ds : list Z) : Prop :=
  match ds with
  | [] => True
  | d' :: ds' =>
      d' = d ∧ ∃ r : Z, (5 ≤ r ≤ 10)%Z ∧ backoff_chain (Z.min 60 (d + r)) ds'
  end.

Definition three_failures : list (Failure * Q * bool) :=
  [ (Transport_error, 0 # 1, false);
    (Unsolicited_close, 1 # 2, true);
    (Unsolicited_close, 99 # 100, true) ].

(** *** Resync and replay *)

(** The frames [filters.forEach] sends on socket [k], the first of them
    with the [seed]-th identifier. *)
Fixpoint filter_frames (k : nat) (h : gmap nat string) (seed : nat)
    (fl : list (string * any)) : list (nat * Frame) :=
  match fl with
  | [] => []
  | e :: fl' =>
      (k, mkFrame (uuid_of seed) "filter" (PFilter (fst e) (stringify h (snd e))))
        :: filter_frames k h (S seed) fl'
  end.

Definition join_frame (k : nat) (w : World) : nat * Frame :=
  (k, mkFrame (uuid_of (uuid_seed w + length (filters w))) "join"
        (PChannels (channels w))).

Definition resync_frames (k : nat) (w : World) : list (nat * Frame) :=
  filter_frames k (heap w) (uuid_seed w) (filters w) ++ [join_frame k w].

Definition replay_frame (k : nat) (start : string) (w : World) : nat * Frame :=
  (k, mkFrame (uuid_of (S (uuid_seed w + length (filters w)))) "replay"
        (PReplay (channels w) start)).

(** The three conditions for a replay request: a last-seen id exists, a
    previous connection time exists, and the gap is below [replayMaxTime]. *)
Definition replay_due (prev : option Z) (now : Z) (w : World) : Prop :=
  ∃ (m : string) (t : Z),
    lastMessage w = Some m ∧ prev = Some t ∧ now - t < replayMaxTime w.

(** What went out between [w] and a later world [w']. *)
Definition sent_since (w w' : World) : list (nat * Frame) :=
  drop (length (wire w)) (wire w').

Definition is_replay (f : nat * Frame) : Prop := ft (snd f) = "replay".

(** The sample session after a message with id [m1], a drop of the
    connection, and the reopening of a new socket: the world in which the
    resumed [onOpen] runs [joinRoomsFilter].  The previous connection was
    made at time 1250. *)
Definition reconnecting_world : World :=
  run [ (at_time 1300, Call_filter "ACTIVITY" (Obj 1));
        (at_time 2000,
         Sock_message 0 (text_frame (mkMsg (Some "m1") (Some "playerMessage") None None)));
        (at_time 9000, Sock_close 0);
        (at_time 9001, Timer_fires 1);
        (at_time 9100, Sock_open 1) ]
    connected_world.

(** *** Reachable states *)

(** The host's contract for the readings a handler takes: the clock is
    past its instant 0 and [Math.random()] lies in [0,1). *)
Definition valid_oracle (o : Oracle) : Prop :=
  now o ≠ 0 ∧ unit_interval (random o).

Definition valid_trace (tr : list (Oracle * Input)) : Prop :=
  Forall (λ x, valid_oracle (fst x)) tr.

(** The [prevLastConnected] a listener closes over. *)
Definition captures (l : Listener) : option Z :=
  match l with
  | LOnMsg _ prev => prev
  | _ => None
  end.

(** What holds in every world a run can reach. *)
Record Inv (w : World) : Prop := mkInv {
  inv_lastMessage : lastMessage w ≠ Some EmptyString;
  inv_lastConnected : lastConnected w ≠ Some 0;
  inv_suspended : Forall (λ p, p ≠ Some 0) (suspended w);
  inv_closures : ∀ k s, sockets w !! k = Some s →
                   Forall (λ r, captures (snd r) ≠ Some 0) (listeners s);
  inv_retryDelay : 0 ≤ retryDelay w ≤ 60;
  inv_timers : ∀ h, is_Some (timers w !! h) → (h < next_timer w)%nat;
  inv_monitorInterval : ∀ h, monitorInterval w = Some h → (h < next_timer w)%nat;
  inv_reconnectTimeout : ∀ h, reconnectTimeout w = Some h → (h < next_timer w)%nat;
  inv_distinct : ∀ h, monitorInterval w = Some h → reconnectTimeout w ≠ Some h
}.

(** The fields the invariant reads. *)
Definition core (w : World) :=
  (lastMessage w, lastConnected w, suspended w, sockets w, retryDelay w,
   timers w, next_timer w, monitorInterval w, reconnectTimeout w).


(** ** Vocabulary of the further properties *)

(** Groups of fields: the subscription registry, the dispatcher's
    tracking state, and the timers with the two fields that name them. *)
Definition registry (w : World) := (channels w, filters w).
Definition tracking (w : World) := (lastMessage w, emitted w).
Definition timing (w : World) := (timers w, monitorInterval w, reconnectTimeout w).


(** The replay frame [joinRoomsFilter] appends, if any. *)
Definition replay_part (prev : option Z) (now : Z) (k : nat) (w : World)
    : list (nat * Frame) :=
  if truthy_string (lastMessage w) && truthy_number prev
     && Z.ltb (now - default 0 prev) (replayMaxTime w)
  then [replay_frame k (default EmptyString (lastMessage w)) w]
  else [].




(** The registry holds each channel and each filter type once. *)
Definition Registry_ok (w : World) : Prop :=
  NoDup (channels w) ∧ NoDup (map fst (filters w)).

(** Every pending timer is the one its field names. *)
Definition Timers_ok (w : World) : Prop :=
  ∀ h t, timers w !! h = Some t →
    match callback t with
    | CbMonitor => monitorInterval w = Some h
    | CbReconnect => reconnectTimeout w = Some h
    end.

(** A transient listener: the [onMsg] of some handshake. *)
Definition is_transient (r : EventName * Listener) : Prop :=
  ∃ a p, r = (EvMessage, LOnMsg a p).

(** The listeners of a socket: the four lifecycle listeners, or none of
    them once [close()] has detached them, followed by transient ones. *)
Definition listener_shape (ls : list (EventName * Listener)) : Prop :=
  ∃ ms, Forall is_transient ms ∧ (ls = lifecycle_listeners ++ ms ∨ ls = ms).

Definition Shape_ok (w : World) : Prop :=
  ∀ k s, sockets w !! k = Some s → listener_shape (listeners s).

(** The listeners [close()] leaves on the socket. *)
Definition detached (ls : list (EventName * Listener)) : list (EventName * Listener) :=
  remove_first (EvError, LRetryConnection)
    (remove_first (EvMessage, LOnMessage)
       (remove_first (EvOpen, LOnOpen)
          (remove_first (EvClose, LOnClose) ls))).

(** The last-seen id is the id of an envelope the subscriber was given,
    one that is neither an [ack] nor an [error]. *)
Definition Delivered_ok (w : World) : Prop :=
  ∀ m, lastMessage w = Some m →
    m ≠ EmptyString
    ∧ ∃ msg, msg ∈ emitted w ∧ msg_i msg = Some m
             ∧ is_ack msg = false ∧ is_error msg = false.

(** Inputs other than a socket's open event. *)
Definition not_open (x : Oracle * Input) : Prop := ∀ k, snd x ≠ Sock_open k.

(** Inputs that are calls of [join], [leave] or [filter]. *)
Definition registry_call (x : Oracle * Input) : Prop :=
  match snd x with
  | Call_join _ | Call_leave _ | Call_filter _ _ => True
  | _ => False
  end.

(** *** Further sample worlds *)

(** A client whose caller has registered a channel and a filter and
    called [open()]: socket 0 is connecting. *)
Definition opening_world : World :=
  run [ (at_time 900, Heap_write 1 playerMessages);
        (at_time 1000, Call_open);
        (at_time 1001, Call_join "server:events:1");
        (at_time 1002, Call_filter "ACTIVITY" (Obj 1)) ]
    (WSClient.constructor 300000).

(** The sample session followed by a transport failure, which the socket
    reports as an error and then as a close. *)
Definition failing_run : list (Oracle * Input) :=
  session_start ++ [ (at_time 5000, Sock_error 0); (at_time 5000, Sock_close 0) ].


(** The sample session, then an application message with id [m1], an
    [error] frame with id [e1], and the loss of the connection. *)
Definition reconnecting_run : list (Oracle * Input) :=
  session_start ++
  [ (at_time 2000,
     Sock_message 0 (text_frame (mkMsg (Some "m1") (Some "playerMessage") None None)));
    (at_time 2500,
     Sock_message 0 (text_frame (mkMsg (Some "e1") (Some "error") None None)));
    (at_time 9000, Sock_close 0) ].


(** * Properties *)

(** ** Subscription registry *)

Lemma Set_delete_elem (s : list string) (x c : string) :
  c ∈ Set_delete s x ↔ c ∈ s ∧ c ≠ x.
Proof.
  induction s as [|y s IH]; simpl.
  - split; [intros H; inversion H | intros [H _]; inversion H].
  - destruct (decide (y = x)) as [->|Hne].
    + rewrite IH, elem_of_cons. intuition congruence.
    + rewrite !elem_of_cons, IH. intuition congruence.
Qed.

Lemma Set_delete_absent (s : list string) (x : string) :
  x ∉ s → Set_delete s x = s.
Proof.
  induction s as [|y s IH]; simpl; [done|].
  intros Hn. apply not_elem_of_cons in Hn as [Hxy Hs].
  destruct (decide (y = x)); [congruence|]. by rewrite IH.
Qed.

(** C8.  [leave(X)] takes [X] out of the channel set whether or not it was
    a member (every other member stays, and a set without [X] is left as it
    was); with the transport open it sends one [leave] frame carrying
    [[X]], without it the wire is untouched. *)
Theorem leave_unconditional (X : string) (w : World) :
  let w' := WSClient.leave X w in
  (channels w' = Set_delete (channels w) X)
  ∧ (X ∉ channels w')
  ∧ (∀ c, c ∈ channels w' ↔ c ∈ channels w ∧ c ≠ X)
  ∧ (X ∉ channels w → channels w' = channels w)
  ∧ match ws_open w with
    | Some k =>
        wire w' =
        wire w ++ [(k, mkFrame (uuid_of (uuid_seed w)) "leave" (PChannels [X]))]
    | None => wire w' = wire w
    end.
Proof.
  intros w'. subst w'. unfold WSClient.leave.
  change (ws_open (set_channels (Set_delete (channels w) X) w)) with (ws_open w).
  assert (Hch : ∀ o : option nat,
    channels (match o with
              | Some k => send k "leave" (PChannels [X])
                            (set_channels (Set_delete (channels w) X) w)
              | None => set_channels (Set_delete (channels w) X) w
              end) = Set_delete (channels w) X)
    by (intros [k|]; reflexivity).
  rewrite Hch. split; [done|]. split.
  { rewrite Set_delete_elem. intros [_ H]. by apply H. }
  split; [apply Set_delete_elem|]. split; [apply Set_delete_absent|].
  destruct (ws_open w); reflexivity.
Qed.

(** A channel that was never joined, on the open connection of the sample
    session. *)
Lemma leave_unconditional_witness :
  let w' := WSClient.leave "server:activity:1" connected_world in
  ("server:activity:1" ∉ channels connected_world)
  ∧ channels w' = channels connected_world
  ∧ wire w' = wire connected_world
              ++ [(0%nat, mkFrame "uuid-1" "leave" (PChannels ["server:activity:1"]))].
Proof.
  intros w'.
  destruct (leave_unconditional "server:activity:1" connected_world)
    as (_ & _ & _ & Hsame & Hwire).
  assert (Habsent : "server:activity:1" ∉ channels connected_world).
  { vm_compute. intros H. repeat (apply elem_of_cons in H as [H|H]; [discriminate|]).
    inversion H. }
  split; [exact Habsent|]. split; [exact (Hsame Habsent)|].
  vm_compute in Hwire. vm_compute. exact Hwire.
Defined.

(** ** Message dispatcher *)

(** C10.  A text frame whose envelope has no correlation id, or an empty
    one, leaves the last-seen message id as it was, whatever its type; it
    still stamps the activity time, and it is emitted unless its type is
    [ack]. *)
Theorem onMessage_without_correlation_id (now : Z) (msg : IRTMessage) (w : World) :
  msg_i msg = None ∨ msg_i msg = Some EmptyString →
  let w' := WSClient.onMessage now (text_frame msg) w in
  lastMessage w' = lastMessage w
  ∧ lastPing w' = Some now
  ∧ emitted w' =
    (if bool_decide (msg_t msg = Some "ack") then emitted w
     else emitted w ++ [msg]).
Proof.
  intros Hi w'. subst w'. unfold WSClient.onMessage, text_frame. simpl.
  assert (Hfalsy : truthy_string (msg_i msg) = false)
    by (destruct Hi as [->| ->]; reflexivity).
  rewrite Hfalsy. simpl.
  destruct (bool_decide (msg_t msg = Some "ack")); auto.
Qed.

Lemma onMessage_without_correlation_id_witness :
  let msg := mkMsg None (Some "playerMessage") None None in
  let w := set_lastMessage (Some "m1") (WSClient.constructor 300000) in
  let w' := WSClient.onMessage 1700 (text_frame msg) w in
  lastMessage w' = Some "m1" ∧ lastPing w' = Some 1700 ∧ emitted w' = [msg].
Proof.
  intros msg w.
  apply (onMessage_without_correlation_id 1700 msg w).
  left. reflexivity.
Defined.

(** C6, as the code has it.  Every text frame stamps the activity time.
    An [ack] is not emitted and does not touch the last-seen id; an
    [error] is emitted and does not touch it either; any other frame is
    emitted, and sets the last-seen id to its correlation id when that id
    is present and not empty, and leaves it alone otherwise. *)
Theorem onMessage_dispatch (now : Z) (msg : IRTMessage) (w : World) :
  let w' := WSClient.onMessage now (text_frame msg) w in
  lastPing w' = Some now
  ∧ emitted w' = (if is_ack msg then emitted w else emitted w ++ [msg])
  ∧ lastMessage w' =
    (if is_ack msg || is_error msg then lastMessage w
     else if truthy_string (msg_i msg) then msg_i msg
     else lastMessage w).
Proof.
  intros w'. subst w'. unfold WSClient.onMessage, text_frame, is_ack, is_error.
  simpl.
  destruct (truthy_string (msg_i msg)),
    (bool_decide (msg_t msg = Some "error")),
    (bool_decide (msg_t msg = Some "ack")); simpl; auto.
Qed.

(** C6 as worded fails: an application frame with an empty correlation id
    arrives after one with id [m1]; it is neither [ack] nor [error], yet the
    last-seen id is not taken from it. *)
Lemma onMessage_dispatch_counterexample :
  let first := mkMsg (Some "m1") (Some "playerMessage") None None in
  let second := mkMsg (Some EmptyString) (Some "playerMessage") None None in
  let w := WSClient.onMessage 1000 (text_frame first) (WSClient.constructor 300000) in
  let w' := WSClient.onMessage 2000 (text_frame second) w in
  is_ack second = false ∧ is_error second = false
  ∧ lastMessage w' = Some "m1" ∧ lastMessage w' ≠ msg_i second.
Proof. repeat split; vm_compute; congruence. Qed.

(** ** Filter registry *)

Lemma strict_eq_refl (v : any) : strict_eq v v = true.
Proof. destruct v; simpl; auto using bool_decide_eq_true_2. Qed.

Lemma Map_get_set (m : list (string * any)) (key : string) (v : any) :
  Map_get (Map_set m key v) key = v.
Proof.
  induction m as [|[k v'] m IH]; simpl.
  - by rewrite decide_True.
  - destruct (decide (k = key)); simpl.
    + by rewrite decide_True.
    + by rewrite decide_False.
Qed.

Lemma filter_filters (type : string) (v : any) (w : World) :
  strict_eq (Map_get (filters w) type) v = false →
  filters (WSClient.filter type v w) = Map_set (filters w) type v.
Proof.
  intros H. unfold WSClient.filter. rewrite H.
  change (ws_open (set_filters (Map_set (filters w) type v) w)) with (ws_open w).
  destruct (ws_open w); reflexivity.
Qed.

Lemma filter_stores (type : string) (v : any) (w : World) :
  Map_get (filters (WSClient.filter type v w)) type = v ∨
  strict_eq (Map_get (filters (WSClient.filter type v w)) type) v = true.
Proof.
  destruct (strict_eq (Map_get (filters w) type) v) eqn:E.
  - right. unfold WSClient.filter. by rewrite E.
  - left. rewrite filter_filters by done. apply Map_get_set.
Qed.

Lemma filter_frame (type : string) (v : any) (w : World) :
  ws_open (WSClient.filter type v w) = ws_open w
  ∧ heap (WSClient.filter type v w) = heap w.
Proof.
  unfold WSClient.filter. destruct (strict_eq _ _); [done|].
  change (ws_open (set_filters (Map_set (filters w) type v) w)) with (ws_open w).
  destruct (ws_open w) eqn:E; [|done]. split; [|reflexivity].
  unfold ws_open, send. simpl. exact E.
Qed.

Lemma filter_wire (type : string) (v : any) (w : World) :
  strict_eq (Map_get (filters w) type) v = false →
  wire (WSClient.filter type v w) =
  match ws_open w with
  | Some k =>
      wire w ++ [(k, mkFrame (uuid_of (uuid_seed w)) "filter"
                       (PFilter type (stringify (heap w) v)))]
  | None => wire w
  end.
Proof.
  intros E. unfold WSClient.filter. rewrite E.
  change (ws_open (set_filters (Map_set (filters w) type v) w)) with (ws_open w).
  destruct (ws_open w); reflexivity.
Qed.

(** C7.  [filter(type, spec)] changes nothing at all exactly when
    [filters.get(type) === spec]; a second call with the same value is
    therefore a no-op; and after storing object [r1], a call with another
    object [r2] (whatever its content, equal to that of [r1] or not) stores
    [r2] and, with the transport open, sends a [filter] frame again. *)
Theorem filter_identity_dedup (type : string) (v : any) (r1 r2 : nat) (w : World) :
  r1 ≠ r2 →
  (WSClient.filter type v w = w ↔ strict_eq (Map_get (filters w) type) v = true)
  ∧ WSClient.filter type v (WSClient.filter type v w) = WSClient.filter type v w
  ∧ (let w1 := WSClient.filter type (Obj r1) w in
     let w2 := WSClient.filter type (Obj r2) w1 in
     Map_get (filters w1) type = Obj r1
     ∧ Map_get (filters w2) type = Obj r2
     ∧ match ws_open w with
       | Some k =>
           wire w2 =
           wire w1 ++ [(k, mkFrame (uuid_of (uuid_seed w1)) "filter"
                             (PFilter type (heap w !! r2)))]
       | None => wire w2 = wire w1
       end).
Proof.
  intros Hne. split; [|split].
  - split.
    + intros Heq. destruct (strict_eq (Map_get (filters w) type) v) eqn:E; [done|].
      pose proof (filter_filters type v w E) as Hf. rewrite Heq in Hf.
      rewrite Hf, Map_get_set, strict_eq_refl in E. done.
    + intros E. unfold WSClient.filter. by rewrite E.
  - destruct (filter_stores type v w) as [H|H].
    + unfold WSClient.filter at 1. by rewrite H, strict_eq_refl.
    + unfold WSClient.filter at 1. by rewrite H.
  - intros w1 w2.
    assert (H1 : Map_get (filters w1) type = Obj r1).
    { subst w1. destruct (strict_eq (Map_get (filters w) type) (Obj r1)) eqn:E.
      - unfold WSClient.filter. rewrite E.
        destruct (Map_get (filters w) type); simpl in E; try done.
        apply bool_decide_eq_true_1 in E. by subst.
      - rewrite filter_filters by done. apply Map_get_set. }
    assert (E2 : strict_eq (Map_get (filters w1) type) (Obj r2) = false).
    { rewrite H1. simpl. by apply bool_decide_eq_false_2. }
    split; [done|]. split.
    { subst w2. rewrite filter_filters by done. apply Map_get_set. }
    destruct (filter_frame type (Obj r1) w) as [Hopen Hheap].
    fold w1 in Hopen, Hheap.
    subst w2. rewrite (filter_wire type (Obj r2) w1 E2), Hopen.
    destruct (ws_open w); [|reflexivity]. simpl. by rewrite Hheap.
Qed.

(** Two distinct objects of equal content, on an open connection: the
    second call sends the same payload once more. *)
Lemma filter_identity_dedup_witness :
  let w1 := WSClient.filter "ACTIVITY" (Obj 1) connected_world in
  let w2 := WSClient.filter "ACTIVITY" (Obj 2) w1 in
  heap connected_world !! 1%nat = heap connected_world !! 2%nat
  ∧ wire w2 = wire w1
              ++ [(0%nat, mkFrame "uuid-2" "filter" (PFilter "ACTIVITY" (Some playerMessages)))]
  ∧ WSClient.filter "ACTIVITY" (Obj 2) w2 = w2.
Proof.
  intros w1 w2.
  destruct (filter_identity_dedup "ACTIVITY" (Obj 1) 1 2 connected_world)
    as (_ & _ & _ & _ & Hsend); [lia|].
  destruct (filter_identity_dedup "ACTIVITY" (Obj 2) 1 2 w1)
    as (_ & Hagain & _); [lia|].
  split; [vm_compute; reflexivity|].
  split; [vm_compute in Hsend; vm_compute; exact Hsend|exact Hagain].
Defined.

(** ** Connection lifecycle *)

Lemma ws_open_without_handle (w : World) : ws w = None → ws_open w = None.
Proof. intros H. unfold ws_open. by rewrite H. Qed.

Lemma setupConnection_spec (w : World) :
  let w' := WSClient.setupConnection w in
  ws w' = Some (next_socket w)
  ∧ sockets w' !! next_socket w = Some (mkSocket CONNECTING lifecycle_listeners)
  ∧ timers w' = timers w
  ∧ reconnectTimeout w' = reconnectTimeout w
  ∧ monitorInterval w' = monitorInterval w
  ∧ retryDelay w' = retryDelay w.
Proof.
  unfold WSClient.setupConnection, new_WebSocket, addEventListener, on_socket.
  simpl. split; [done|]. split; [|done].
  rewrite !lookup_alter_eq, lookup_insert_eq. reflexivity.
Qed.

Lemma close_spec (k : nat) (w : World) :
  ws w = Some k →
  let w' := WSClient.close w in
  ws w' = None ∧ reconnectTimeout w' = None
  ∧ monitorInterval w' = monitorInterval w
  ∧ next_timer w' = next_timer w
  ∧ lastPing w' = lastPing w
  ∧ timers w' = match reconnectTimeout w with
                | Some h => delete h (timers w)
                | None => timers w
                end.
Proof.
  intros Hws. unfold WSClient.close. rewrite Hws. simpl.
  destruct (reconnectTimeout w) eqn:E; simpl; rewrite ?E; done.
Qed.

(** What [close()] does to the socket it held: the four lifecycle
    listeners are taken off and the socket starts closing. *)
Lemma close_detaches (k : nat) (s : Socket) (w : World) :
  ws w = Some k → sockets w !! k = Some s →
  listeners s = lifecycle_listeners →
  sockets (WSClient.close w) !! k =
  Some (mkSocket (if decide (readyState s = CLOSED) then CLOSED else CLOSING) []).
Proof.
  intros Hws Hs Hl. unfold WSClient.close. rewrite Hws.
  assert (Hso : ∀ x, sockets (match reconnectTimeout w with
                              | Some h => set_reconnectTimeout None (clearTimeout h x)
                              | None => x
                              end) = sockets x)
    by (intros x; destruct (reconnectTimeout w); reflexivity).
  change (reconnectTimeout (set_ws None _)) with (reconnectTimeout w).
  rewrite Hso. unfold sock_close, removeEventListener, on_socket. simpl.
  rewrite !lookup_alter_eq, Hs. simpl. rewrite Hl. reflexivity.
Qed.

Lemma monitorConnection_spec (w : World) :
  let w' := WSClient.monitorConnection w in
  monitorInterval w' = Some (next_timer w)
  ∧ timers w' !! next_timer w = Some (mkTimer CbMonitor 30000).
Proof.
  unfold WSClient.monitorConnection.
  destruct (monitorInterval w); simpl; (split; [done|apply lookup_insert_eq]).
Qed.

Lemma monitor_fires_without_handle (now : Z) (w : World) :
  ws w = None →
  let w' := WSClient.monitor_fires now w in
  monitorInterval w' = Some (next_timer w)
  ∧ timers w' !! next_timer w = Some (mkTimer CbMonitor 30000).
Proof.
  intros Hws. unfold WSClient.monitor_fires.
  rewrite (ws_open_without_handle w Hws).
  destruct (_ && _).
  - rewrite (ws_open_without_handle (log Stalled w) Hws).
    apply (monitorConnection_spec (log Stalled w)).
  - apply monitorConnection_spec.
Qed.

Lemma retryConnection_spec (rnd : Q) (w : World) :
  let w' := WSClient.retryConnection rnd w in
  ws w' = ws w
  ∧ monitorInterval w' = monitorInterval w
  ∧ reconnectTimeout w' = Some (next_timer w)
  ∧ timers w' = <[next_timer w := mkTimer CbReconnect (retryDelay w * 1000)]>
                  (match reconnectTimeout w with
                   | Some h => delete h (timers w)
                   | None => timers w
                   end)
  ∧ next_timer w' = S (next_timer w)
  ∧ retryDelay w' = Z.min 60 (retryDelay w + jitter rnd).
Proof.
  unfold WSClient.retryConnection, jitter.
  destruct (reconnectTimeout w); simpl; done.
Qed.

Lemma onClose_spec (rnd : Q) (w : World) :
  let w' := WSClient.onClose rnd w in
  ws w' = None
  ∧ monitorInterval w' = None
  ∧ reconnectTimeout w' = Some (next_timer w)
  ∧ timers w' = <[next_timer w := mkTimer CbReconnect (retryDelay w * 1000)]>
                  (match reconnectTimeout w with
                   | Some h => delete h
                   | None => id
                   end
                   (match monitorInterval w with
                    | Some h => delete h (timers w)
                    | None => timers w
                    end))
  ∧ next_timer w' = S (next_timer w)
  ∧ retryDelay w' = Z.min 60 (retryDelay w + jitter rnd).
Proof.
  unfold WSClient.onClose, WSClient.retryConnection, jitter.
  simpl. destruct (monitorInterval w) eqn:Em; simpl;
    destruct (reconnectTimeout w) eqn:Er; simpl; done.
Qed.

(** C9.  With no transport handle and a reconnect timer pending, [close()]
    returns the world it was given: the timer stays pending, and when it
    fires the client has a handle again, on a fresh connecting socket that
    carries the lifecycle listeners. *)
Theorem close_without_handle (o : Oracle) (h : nat) (t : Timer) (w : World) :
  ws w = None → reconnectTimeout w = Some h →
  timers w !! h = Some t → callback t = CbReconnect →
  WSClient.close w = w
  ∧ reconnectTimeout (WSClient.close w) = Some h
  ∧ timers (WSClient.close w) !! h = Some t
  ∧ (let w' := step o (Timer_fires h) (WSClient.close w) in
     ws w' = Some (next_socket w)
     ∧ sockets w' !! next_socket w = Some (mkSocket CONNECTING lifecycle_listeners)).
Proof.
  intros Hws Hr Ht Hcb.
  assert (Hclose : WSClient.close w = w) by (unfold WSClient.close; by rewrite Hws).
  rewrite Hclose. split; [done|]. split; [done|]. split; [done|].
  unfold step. rewrite Ht, Hcb. unfold WSClient.reconnect_fires.
  destruct (setupConnection_spec
              (set_reconnectTimeout None (set_timers (delete h (timers w)) w)))
    as (H1 & H2 & _).
  split; [exact H1|exact H2].
Qed.

Lemma close_without_handle_witness :
  ws disconnected_world = None
  ∧ WSClient.close disconnected_world = disconnected_world
  ∧ timers (WSClient.close disconnected_world) !! 1%nat = Some (mkTimer CbReconnect 0)
  ∧ ws (step (at_time 9001) (Timer_fires 1) (WSClient.close disconnected_world))
    = Some 1%nat.
Proof.
  destruct (close_without_handle (at_time 9001) 1 (mkTimer CbReconnect 0)
              disconnected_world)
    as (H1 & _ & H2 & H3 & _); try (vm_compute; reflexivity).
  split; [vm_compute; reflexivity|].
  split; [exact H1|]. split; [exact H2|]. vm_compute in H3. vm_compute. exact H3.
Defined.

(** C2, at the point where the code departs from it.  From any state with
    a transport handle and a running liveness timer, [close()] clears the
    handle and cancels the reconnect timer, but the liveness timer is still
    pending afterwards; when it fires it arms itself again. *)
Theorem close_leaves_liveness_timer (o : Oracle) (k h : nat) (t : Timer) (w : World) :
  ws w = Some k → monitorInterval w = Some h →
  timers w !! h = Some t → callback t = CbMonitor →
  reconnectTimeout w ≠ Some h →
  let w' := WSClient.close w in
  ws w' = None
  ∧ reconnectTimeout w' = None
  ∧ (∀ h', reconnectTimeout w = Some h' → timers w' !! h' = None)
  ∧ monitorInterval w' = Some h
  ∧ timers w' !! h = Some t
  ∧ (let w'' := step o (Timer_fires h) w' in
     monitorInterval w'' = Some (next_timer w)
     ∧ timers w'' !! next_timer w = Some (mkTimer CbMonitor 30000)).
Proof.
  intros Hws Hm Ht Hcb Hr w'.
  destruct (close_spec k w Hws) as (H1 & H2 & H3 & H4 & H5 & H6).
  fold w' in H1, H2, H3, H4, H5, H6.
  assert (Ht' : timers w' !! h = Some t).
  { rewrite H6. destruct (reconnectTimeout w) as [h'|]; [|done].
    rewrite lookup_delete_ne; [done|]. congruence. }
  split; [done|]. split; [done|]. split.
  { intros h' Hh'. rewrite H6, Hh'. apply lookup_delete_eq. }
  split; [congruence|]. split; [done|].
  unfold step. rewrite Ht', Hcb.
  destruct (monitor_fires_without_handle (now o)
              (set_timers (delete h (timers w')) w') H1) as [Ha Hb].
  simpl in Ha, Hb. rewrite H4 in Ha, Hb. split; [exact Ha|exact Hb].
Qed.

Lemma close_leaves_liveness_timer_witness :
  let w' := WSClient.close connected_world in
  ws connected_world = Some 0%nat
  ∧ ws w' = None
  ∧ timers w' !! 0%nat = Some (mkTimer CbMonitor 30000).
Proof.
  destruct (close_leaves_liveness_timer (at_time 31250) 0 0
              (mkTimer CbMonitor 30000) connected_world)
    as (H1 & _ & _ & _ & H2 & _); try (vm_compute; congruence).
  split; [vm_compute; reflexivity|]. split; [exact H1|exact H2].
Defined.

(** C3, as the code has it.  An unsolicited close clears the handle, stops
    the liveness timer and runs the backoff step; a transport error runs
    the backoff step alone and leaves the handle and the liveness timer as
    they are.  The backoff step is the same in both: the attempt is
    scheduled after the current delay and the delay grows by the jitter, up
    to 60.  The two transitions agree on states that have neither a handle
    nor a liveness timer. *)
Theorem error_and_close_transitions (rnd : Q) (w : World) :
  let e := WSClient.retryConnection rnd w in
  let c := WSClient.onClose rnd w in
  (ws c = None ∧ monitorInterval c = None
   ∧ (∀ h, monitorInterval w = Some h → h ≠ next_timer w → timers c !! h = None))
  ∧ (ws e = ws w ∧ monitorInterval e = monitorInterval w
     ∧ (∀ h, monitorInterval w = Some h → h ≠ next_timer w →
             reconnectTimeout w ≠ Some h → timers e !! h = timers w !! h))
  ∧ (reconnectTimeout c = Some (next_timer w)
     ∧ timers c !! next_timer w = Some (mkTimer CbReconnect (retryDelay w * 1000))
     ∧ retryDelay c = Z.min 60 (retryDelay w + jitter rnd))
  ∧ (reconnectTimeout e = Some (next_timer w)
     ∧ timers e !! next_timer w = Some (mkTimer CbReconnect (retryDelay w * 1000))
     ∧ retryDelay e = Z.min 60 (retryDelay w + jitter rnd))
  ∧ (ws w = None → monitorInterval w = None → c = e).
Proof.
  intros e c.
  destruct (retryConnection_spec rnd w) as (E1 & E2 & E3 & E4 & _ & E6).
  destruct (onClose_spec rnd w) as (C1 & C2 & C3 & C4 & _ & C6).
  fold e in E1, E2, E3, E4, E6. fold c in C1, C2, C3, C4, C6.
  split; [|split; [|split; [|split]]].
  - split; [done|]. split; [done|]. intros h Hm Hn.
    rewrite C4, Hm, lookup_insert_ne by done.
    destruct (reconnectTimeout w) as [h'|]; simpl.
    + destruct (decide (h' = h)) as [->|]; [apply lookup_delete_eq|].
      rewrite lookup_delete_ne by done. apply lookup_delete_eq.
    + apply lookup_delete_eq.
  - split; [done|]. split; [done|]. intros h Hm Hn Hr.
    rewrite E4, lookup_insert_ne by done.
    destruct (reconnectTimeout w) as [h'|]; [|done].
    rewrite lookup_delete_ne; [done|congruence].
  - split; [done|]. split; [|done]. rewrite C4. apply lookup_insert_eq.
  - split; [done|]. split; [|done]. rewrite E4. apply lookup_insert_eq.
  - intros Hws Hm. subst e c. unfold WSClient.onClose. simpl. rewrite Hm.
    f_equal. destruct w; simpl in *; by subst.
Qed.

Lemma error_and_close_transitions_witness :
  let e := WSClient.retryConnection (1 # 2) connected_world in
  let c := WSClient.onClose (1 # 2) connected_world in
  monitorInterval connected_world = Some 0%nat
  ∧ timers c !! 0%nat = None
  ∧ timers e !! 0%nat = Some (mkTimer CbMonitor 30000)
  ∧ retryDelay c = 8 ∧ retryDelay e = 8
  ∧ WSClient.onClose (1 # 2) disconnected_world
    = WSClient.retryConnection (1 # 2) disconnected_world.
Proof.
  destruct (error_and_close_transitions (1 # 2) connected_world)
    as ((_ & _ & Hc) & (_ & _ & He) & (_ & _ & Dc) & (_ & _ & De) & _).
  destruct (error_and_close_transitions (1 # 2) disconnected_world)
    as (_ & _ & _ & _ & Hsame).
  split; [vm_compute; reflexivity|].
  split; [apply Hc; vm_compute; congruence|].
  split; [rewrite He by (vm_compute; congruence); vm_compute; reflexivity|].
  split; [rewrite Dc; vm_compute; reflexivity|].
  split; [rewrite De; vm_compute; reflexivity|].
  apply Hsame; vm_compute; reflexivity.
Defined.

(** C3 as worded fails.  On the open connection of the sample session, a
    close event clears the handle and stops the liveness timer, while an
    error event leaves the handle in place and the liveness timer pending. *)
Lemma error_is_not_close_counterexample :
  let after_error := step (at_time 5000) (Sock_error 0) connected_world in
  let after_close := step (at_time 5000) (Sock_close 0) connected_world in
  (ws after_close = None ∧ monitorInterval after_close = None
   ∧ timers after_close !! 0%nat = None)
  ∧ (ws after_error = Some 0%nat ∧ monitorInterval after_error = Some 0%nat
     ∧ timers after_error !! 0%nat = Some (mkTimer CbMonitor 30000)).
Proof. vm_compute. repeat split. Qed.

(** ** Reconnect backoff *)

Lemma jitter_bounds (rnd : Q) : unit_interval rnd → 5 ≤ jitter rnd ≤ 10.
Proof.
  intros [Hlo Hhi]. unfold jitter.
  assert (H0 : 0 ≤ Qfloor (rnd * 6)).
  { change 0 with (Qfloor 0). apply Qfloor_resp_le.
    replace 0%Q with (0 * 6)%Q by reflexivity.
    apply Qmult_le_compat_r; [exact Hlo|discriminate]. }
  assert (H6 : Qfloor (rnd * 6) < 6).
  { rewrite Zlt_Qlt. eapply Qle_lt_trans; [apply Qfloor_le|].
    replace (inject_Z 6) with (1 * 6)%Q by reflexivity.
    apply Qmult_lt_compat_r; [reflexivity|exact Hhi]. }
  lia.
Qed.

Lemma backoff_chain_sorted (d : Z) (ds : list Z) :
  0 ≤ d ≤ 60 → backoff_chain d ds →
  Sorted Z.le ds ∧ Forall (λ x, d ≤ x ≤ 60) ds.
Proof.
  revert d. induction ds as [|x ds IH]; intros d Hd Hc; simpl in Hc.
  - split; constructor.
  - destruct Hc as (-> & r & Hr & Hc).
    destruct (IH (Z.min 60 (d + r))) as [Hs Hf]; [lia|done|].
    split.
    + constructor; [done|]. destruct Hf; constructor. lia.
    + constructor; [lia|]. eapply Forall_impl; [exact Hf|]. simpl. lia.
Qed.

Lemma fail_spec (f : Failure) (rnd : Q) (w : World) :
  let w' := fail f rnd w in
  pending_reconnect_delay w' = Some (retryDelay w * 1000)
  ∧ reconnectTimeout w' = Some (next_timer w)
  ∧ timers w' !! next_timer w = Some (mkTimer CbReconnect (retryDelay w * 1000))
  ∧ retryDelay w' = Z.min 60 (retryDelay w + jitter rnd).
Proof.
  intros w'.
  assert (H : reconnectTimeout w' = Some (next_timer w)
    ∧ timers w' !! next_timer w = Some (mkTimer CbReconnect (retryDelay w * 1000))
    ∧ retryDelay w' = Z.min 60 (retryDelay w + jitter rnd)).
  { subst w'. destruct f; unfold fail.
    - destruct (onClose_spec rnd w) as (_ & _ & H1 & H2 & _ & H3).
      rewrite H1, H2, H3, lookup_insert_eq. done.
    - destruct (retryConnection_spec rnd w) as (_ & _ & H1 & H2 & _ & H3).
      rewrite H1, H2, H3, lookup_insert_eq. done. }
  destruct H as (H1 & H2 & H3).
  unfold pending_reconnect_delay. rewrite H1. simpl. rewrite H2. simpl. done.
Qed.

Lemma fire_reconnect_after_fail (f : Failure) (rnd : Q) (w : World) :
  retryDelay (fire_reconnect (fail f rnd w)) = retryDelay (fail f rnd w).
Proof.
  destruct (fail_spec f rnd w) as (_ & H1 & H2 & _).
  unfold fire_reconnect, step. rewrite H1, H2. reflexivity.
Qed.

Lemma streak_chain (fs : list (Failure * Q * bool)) (w : World) :
  Forall (λ x, unit_interval (snd (fst x))) fs →
  ∃ ds, streak fs w = map (λ d, Some (d * 1000)) ds
        ∧ backoff_chain (retryDelay w) ds.
Proof.
  revert w. induction fs as [|[[f rnd] fired] fs IH]; intros w Hfs.
  - exists []. done.
  - apply Forall_cons in Hfs as [Hrnd Hfs]. simpl in Hrnd.
    destruct (fail_spec f rnd w) as (Hp & _ & _ & Hd).
    destruct (IH (if fired then fire_reconnect (fail f rnd w) else fail f rnd w) Hfs)
      as (ds & Hs & Hc).
    exists (retryDelay w :: ds). split.
    + simpl. by rewrite Hp, Hs.
    + simpl. split; [done|]. exists (jitter rnd). split; [by apply jitter_bounds|].
      rewrite <- Hd. destruct fired; [by rewrite fire_reconnect_after_fail in Hc|done].
Qed.

Lemma onOpen_retryDelay (now : Z) (w : World) :
  retryDelay (WSClient.onOpen now w) = 0.
Proof.
  unfold WSClient.onOpen, WSClient.monitorConnection. simpl.
  destruct (monitorInterval w); simpl;
    match goal with |- context [ws_open ?x] => destruct (ws_open x) end;
    reflexivity.
Qed.

(** C5.  A new client has delay 0.  Along a failure streak that starts
    with a delay between 0 and 60, every failure schedules the attempt
    after the delay current at that moment (in milliseconds), the delays
    follow [d, min 60 (d + r), ...] with each [r] an integer in [5,10], so
    the sequence never decreases and stays within 60.  [onOpen] sets the
    delay back to 0. *)
Theorem backoff_policy (replayMaxTime now : Z)
    (fs : list (Failure * Q * bool)) (w : World) :
  Forall (λ x, unit_interval (snd (fst x))) fs →
  0 ≤ retryDelay w ≤ 60 →
  retryDelay (WSClient.constructor replayMaxTime) = 0
  ∧ (∃ ds, streak fs w = map (λ d, Some (d * 1000)) ds
           ∧ backoff_chain (retryDelay w) ds
           ∧ Sorted Z.le ds
           ∧ Forall (λ d, 0 ≤ d ≤ 60) ds)
  ∧ retryDelay (WSClient.onOpen now w) = 0.
Proof.
  intros Hfs Hd. split; [reflexivity|]. split.
  - destruct (streak_chain fs w Hfs) as (ds & Hs & Hc).
    destruct (backoff_chain_sorted _ _ Hd Hc) as [Hsorted Hbound].
    exists ds. repeat split; try done.
    eapply Forall_impl; [exact Hbound|]. simpl. lia.
  - apply onOpen_retryDelay.
Qed.

Lemma backoff_policy_witness :
  retryDelay connected_world = 0
  ∧ streak three_failures connected_world = [Some 0; Some 5000; Some 13000]
  ∧ retryDelay (WSClient.onOpen 7000 connected_world) = 0.
Proof.
  destruct (backoff_policy 300000 7000 three_failures connected_world)
    as (_ & _ & H).
  - repeat constructor; simpl; unfold Qle, Qlt; simpl; lia.
  - vm_compute. split; congruence.
  - split; [vm_compute; reflexivity|]. split; [vm_compute; reflexivity|exact H].
Defined.

(** ** Resync and replay *)

Lemma send_filters (k : nat) (fl : list (string * any)) (w : World) :
  fold_left
    (fun w e => send k "filter" (PFilter (fst e) (stringify (heap w) (snd e))) w)
    fl w
  = set_wire (wire w ++ filter_frames k (heap w) (uuid_seed w) fl)
      (set_uuid_seed (uuid_seed w + length fl) w).
Proof.
  revert w. induction fl as [|e fl IH]; intros w; simpl.
  - rewrite app_nil_r, Nat.add_0_r. by destruct w.
  - rewrite IH. unfold send, set_wire, set_uuid_seed. simpl.
    rewrite <- app_assoc. simpl. by rewrite Nat.add_succ_r.
Qed.

Lemma joinRoomsFilter_wire (prev : option Z) (now : Z) (k : nat) (w : World) :
  ws_open w = Some k →
  wire (WSClient.joinRoomsFilter prev now w) =
  wire w ++ resync_frames k w ++
    (if truthy_string (lastMessage w) && truthy_number prev
        && Z.ltb (now - default 0 prev) (replayMaxTime w)
     then [replay_frame k (default EmptyString (lastMessage w)) w]
     else []).
Proof.
  intros Hopen. unfold WSClient.joinRoomsFilter. rewrite Hopen, send_filters.
  simpl. destruct (_ && _ && _); simpl.
  - unfold resync_frames, join_frame, replay_frame. by rewrite <- !app_assoc.
  - unfold resync_frames, join_frame. by rewrite app_nil_r, <- !app_assoc.
Qed.

Lemma filter_frames_entries (k : nat) (h : gmap nat string) (seed : nat)
    (fl : list (string * any)) :
  Forall2 (λ f e, fst f = k ∧ ft (snd f) = "filter"
                  ∧ fp (snd f) = PFilter (fst e) (stringify h (snd e)))
    (filter_frames k h seed fl) fl.
Proof. revert seed. induction fl; intros; simpl; constructor; auto. Qed.

Lemma filter_frames_type (k : nat) (h : gmap nat string) (seed : nat)
    (fl : list (string * any)) :
  Forall (λ f, ft (snd f) = "filter") (filter_frames k h seed fl).
Proof. revert seed. induction fl; intros; simpl; constructor; auto. Qed.

Lemma truthy_string_Some (s : option string) :
  s ≠ Some EmptyString → (truthy_string s = true ↔ ∃ m, s = Some m).
Proof.
  intros Hne. destruct s as [m|]; simpl.
  - rewrite negb_true_iff, bool_decide_eq_false. split; [eauto|]. intros _ ->. done.
  - split; [done|]. intros [? ?]. done.
Qed.

Lemma truthy_number_Some (n : option Z) :
  n ≠ Some 0 → (truthy_number n = true ↔ ∃ t, n = Some t).
Proof.
  intros Hne. destruct n as [t|]; simpl.
  - rewrite negb_true_iff, Z.eqb_neq. split; [eauto|]. intros _ ->. done.
  - split; [done|]. intros [? ?]. done.
Qed.

Lemma replay_test (prev : option Z) (now : Z) (w : World) :
  lastMessage w ≠ Some EmptyString → prev ≠ Some 0 →
  (truthy_string (lastMessage w) && truthy_number prev
     && Z.ltb (now - default 0 prev) (replayMaxTime w) = true
   ↔ replay_due prev now w).
Proof.
  intros Hm Hp.
  rewrite !andb_true_iff, truthy_string_Some, truthy_number_Some, Z.ltb_lt by done.
  unfold replay_due. split.
  - intros [[[m ->] [t ->]] Hlt]. simpl in Hlt. eauto.
  - intros (m & t & -> & -> & Hlt). simpl. eauto.
Qed.

Lemma resync_frames_not_replay (k : nat) (w : World) (f : nat * Frame) :
  f ∈ resync_frames k w → ¬ is_replay f.
Proof.
  intros Hf. unfold resync_frames in Hf. apply elem_of_app in Hf as [Hf|Hf].
  - pose proof (filter_frames_type k (heap w) (uuid_seed w) (filters w)) as Hall.
    rewrite Forall_forall in Hall. unfold is_replay. rewrite (Hall f Hf). done.
  - apply list_elem_of_singleton in Hf as ->. unfold is_replay. simpl. done.
Qed.

(** C1.  [joinRoomsFilter] runs on an open transport, the last-seen id is
    not the empty string, and the captured connection time is not the
    instant 0 of the clock.  Then a [replay] frame goes out if and only if
    a last-seen id exists, a previous connection time exists, and
    [now - previous < replayMaxTime].  When it goes out it follows the
    resync frames and carries the whole channel set and the last-seen id;
    when it does not, the resync frames are all that is sent. *)
Theorem replay_gating (prev : option Z) (now : Z) (k : nat) (w : World) :
  ws_open w = Some k →
  lastMessage w ≠ Some EmptyString →
  prev ≠ Some 0 →
  let w' := WSClient.joinRoomsFilter prev now w in
  ((∃ f, f ∈ sent_since w w' ∧ is_replay f) ↔ replay_due prev now w)
  ∧ (replay_due prev now w →
     ∃ m, lastMessage w = Some m
          ∧ wire w' = wire w ++ resync_frames k w ++ [replay_frame k m w])
  ∧ (¬ replay_due prev now w → wire w' = wire w ++ resync_frames k w).
Proof.
  intros Hopen Hm Hp w'.
  pose proof (joinRoomsFilter_wire prev now k w Hopen) as Hw. fold w' in Hw.
  pose proof (replay_test prev now w Hm Hp) as Htest.
  unfold sent_since. rewrite Hw, drop_app_length.
  destruct (_ && _ && _) eqn:E.
  - assert (Hdue : replay_due prev now w) by (by apply Htest).
    split; [|split].
    + split; [done|]. intros _.
      exists (replay_frame k (default EmptyString (lastMessage w)) w).
      split; [|done]. apply elem_of_app. right. apply list_elem_of_singleton. done.
    + intros _. destruct Hdue as (m & t & Hl & _). exists m.
      split; [done|]. by rewrite Hl.
    + done.
  - assert (Hdue : ¬ replay_due prev now w).
    { intros H. apply Htest in H. congruence. }
    split; [|split].
    + split; [|done]. intros (f & Hf & Hr). rewrite app_nil_r in Hf.
      by destruct (resync_frames_not_replay k w f Hf).
    + done.
    + intros _. by rewrite app_nil_r.
Qed.

(** The gap of the specification's example: with the previous connection
    at [T = 1250] and [replayMaxTime = 300000], a reconnect at [T + 299999]
    replays from [m1], one at [T + 300001] does not. *)
Lemma replay_gating_witness :
  let w := reconnecting_world in
  ws_open w = Some 1%nat ∧ lastMessage w = Some "m1" ∧ replayMaxTime w = 300000
  ∧ wire (WSClient.joinRoomsFilter (Some 1250) (1250 + 299999) w)
    = wire w ++ resync_frames 1 w ++ [replay_frame 1 "m1" w]
  ∧ wire (WSClient.joinRoomsFilter (Some 1250) (1250 + 300001) w)
    = wire w ++ resync_frames 1 w.
Proof.
  intros w.
  destruct (replay_gating (Some 1250) (1250 + 299999) 1 w) as (_ & Hyes & _);
    try (vm_compute; congruence).
  destruct (replay_gating (Some 1250) (1250 + 300001) 1 w) as (_ & _ & Hno);
    try (vm_compute; congruence).
  split; [vm_compute; reflexivity|]. split; [vm_compute; reflexivity|].
  split; [vm_compute; reflexivity|]. split.
  - destruct Hyes as (m & Hm & Hwire).
    + exists "m1", 1250. repeat split; vm_compute; reflexivity.
    + assert (m = "m1") as -> by (vm_compute in Hm; congruence). exact Hwire.
  - apply Hno. intros (m & t & _ & Ht & Hlt).
    injection Ht as <-. vm_compute in Hlt. discriminate.
Defined.

(** C4.  On an open transport [joinRoomsFilter] sends, in this order: one
    [filter] frame for each stored filter entry, in the order of the map;
    one [join] frame whose payload is the whole channel set; and last, at
    most one frame, a [replay].  No other frame of the sequence is a
    [join].  Without an open transport it sends nothing. *)
Theorem resync_order (prev : option Z) (now : Z) (w : World) :
  let w' := WSClient.joinRoomsFilter prev now w in
  match ws_open w with
  | Some k =>
      ∃ fs j r,
        wire w' = wire w ++ fs ++ [(k, j)] ++ r
        ∧ Forall2 (λ f e, fst f = k ∧ ft (snd f) = "filter"
                          ∧ fp (snd f) = PFilter (fst e) (stringify (heap w) (snd e)))
            fs (filters w)
        ∧ ft j = "join" ∧ fp j = PChannels (channels w)
        ∧ (r = [] ∨ ∃ f, r = [(k, f)] ∧ ft f = "replay")
        ∧ Forall (λ f, ft (snd f) ≠ "join") (fs ++ r)
  | None => wire w' = wire w
  end.
Proof.
  intros w'. destruct (ws_open w) as [k|] eqn:Hopen.
  - pose proof (joinRoomsFilter_wire prev now k w Hopen) as Hw. fold w' in Hw.
    exists (filter_frames k (heap w) (uuid_seed w) (filters w)), (snd (join_frame k w)).
    eexists. split.
    { rewrite Hw. unfold resync_frames. rewrite <- app_assoc. reflexivity. }
    split; [apply filter_frames_entries|]. split; [done|]. split; [done|].
    assert (Hff : Forall (λ f : nat * Frame, ft (snd f) ≠ "join")
                    (filter_frames k (heap w) (uuid_seed w) (filters w))).
    { eapply Forall_impl; [apply filter_frames_type|]. simpl. intros f ->. done. }
    destruct (_ && _ && _).
    + split; [right; eexists; split; [reflexivity|done]|].
      apply Forall_app. split; [done|]. constructor; [done|constructor].
    + split; [by left|]. by rewrite app_nil_r.
  - subst w'. unfold WSClient.joinRoomsFilter. by rewrite Hopen.
Qed.

(** ** Frame of the backoff delay *)

(** The delay is written by [retryConnection] (and so by [onClose]) and by
    [onOpen] only. *)

Ltac split_cases :=
  repeat (simpl;
          match goal with
          | |- context [match ?x with _ => _ end] => destruct x
          end).

Lemma close_retryDelay w : retryDelay (WSClient.close w) = retryDelay w.
Proof. unfold WSClient.close. split_cases; reflexivity. Qed.

Lemma open_retryDelay w : retryDelay (WSClient.open w) = retryDelay w.
Proof. unfold WSClient.open, WSClient.setupConnection. split_cases; reflexivity. Qed.

Lemma joinRoomsFilter_retryDelay prev now w :
  retryDelay (WSClient.joinRoomsFilter prev now w) = retryDelay w.
Proof.
  unfold WSClient.joinRoomsFilter. destruct (ws_open w); [|done].
  rewrite send_filters. split_cases; reflexivity.
Qed.

Lemma monitor_fires_retryDelay now w :
  retryDelay (WSClient.monitor_fires now w) = retryDelay w.
Proof.
  unfold WSClient.monitor_fires, WSClient.monitorConnection.
  set (w1 := match ws_open w with Some k => send k "ping" PNone w | None => w end).
  assert (H1 : retryDelay w1 = retryDelay w) by (subst w1; by destruct (ws_open w)).
  clearbody w1.
  set (w2 := if _ && _ then _ else _).
  assert (H2 : retryDelay w2 = retryDelay w).
  { subst w2. destruct (_ && _); [|done]. destruct (ws_open _); [|done].
    by rewrite open_retryDelay, close_retryDelay. }
  clearbody w2. destruct (monitorInterval w2); simpl; done.
Qed.

(** Apart from the three handlers of the backoff policy, no operation of
    the client writes the delay. *)
Lemma retryDelay_frame (o : Oracle) (w : World) :
  (∀ c, retryDelay (WSClient.join c w) = retryDelay w)
  ∧ (∀ c, retryDelay (WSClient.leave c w) = retryDelay w)
  ∧ (∀ t f, retryDelay (WSClient.filter t f w) = retryDelay w)
  ∧ retryDelay (WSClient.close w) = retryDelay w
  ∧ retryDelay (WSClient.open w) = retryDelay w
  ∧ (∀ d, retryDelay (WSClient.onMessage (now o) d w) = retryDelay w)
  ∧ (∀ a p d, retryDelay (WSClient.onMsg a p (now o) d w) = retryDelay w)
  ∧ (∀ p t, retryDelay (WSClient.onOpen_resume p t (now o) w) = retryDelay w)
  ∧ retryDelay (WSClient.reconnect_fires w) = retryDelay w
  ∧ retryDelay (WSClient.monitor_fires (now o) w) = retryDelay w.
Proof.
  split; [|split; [|split; [|split; [|split; [|split; [|split; [|split; [|split]]]]]]]].
  - intros c. unfold WSClient.join. split_cases; reflexivity.
  - intros c. unfold WSClient.leave. split_cases; reflexivity.
  - intros t f. unfold WSClient.filter. split_cases; reflexivity.
  - apply close_retryDelay.
  - apply open_retryDelay.
  - intros d. unfold WSClient.onMessage. split_cases; reflexivity.
  - intros a p d. unfold WSClient.onMsg. destruct (parsed d); [|done].
    destruct (bool_decide _); [|done].
    rewrite joinRoomsFilter_retryDelay. by destruct (ws w).
  - intros p t. unfold WSClient.onOpen_resume. destruct (truthy_string t).
    + split_cases; reflexivity.
    + apply joinRoomsFilter_retryDelay.
  - reflexivity.
  - apply monitor_fires_retryDelay.
Qed.

(** ** Invariants of every run *)

Lemma Inv_frame (w w' : World) : core w' = core w → Inv w → Inv w'.
Proof.
  unfold core. intros [= H1 H2 H3 H4 H5 H6 H7 H8 H9] [].
  constructor; rewrite ?H1, ?H2, ?H3, ?H4, ?H5, ?H6, ?H7, ?H8, ?H9; assumption.
Qed.

Lemma Inv_send k t p w : Inv w → Inv (send k t p w).
Proof. by apply Inv_frame. Qed.
Lemma Inv_log d w : Inv w → Inv (log d w).
Proof. by apply Inv_frame. Qed.
Lemma Inv_set_ws v w : Inv w → Inv (set_ws v w).
Proof. by apply Inv_frame. Qed.
Lemma Inv_set_lastPing v w : Inv w → Inv (set_lastPing v w).
Proof. by apply Inv_frame. Qed.
Lemma Inv_set_channels v w : Inv w → Inv (set_channels v w).
Proof. by apply Inv_frame. Qed.
Lemma Inv_set_filters v w : Inv w → Inv (set_filters v w).
Proof. by apply Inv_frame. Qed.
Lemma Inv_set_emitted v w : Inv w → Inv (set_emitted v w).
Proof. by apply Inv_frame. Qed.
Lemma Inv_set_heap v w : Inv w → Inv (set_heap v w).
Proof. by apply Inv_frame. Qed.
Lemma Inv_set_wire v w : Inv w → Inv (set_wire v w).
Proof. by apply Inv_frame. Qed.
Lemma Inv_set_uuid_seed v w : Inv w → Inv (set_uuid_seed v w).
Proof. by apply Inv_frame. Qed.

Lemma Inv_clearTimeout h w : Inv w → Inv (clearTimeout h w).
Proof.
  intros []. constructor; simpl; try assumption.
  intros h' Hh'. apply inv_timers0. rewrite lookup_delete_is_Some in Hh'. tauto.
Qed.

Lemma Inv_set_timers_delete h w : Inv w → Inv (set_timers (delete h (timers w)) w).
Proof. apply Inv_clearTimeout. Qed.

Lemma Inv_set_reconnectTimeout_None w : Inv w → Inv (set_reconnectTimeout None w).
Proof. intros []. constructor; simpl; try assumption; done. Qed.

Lemma Inv_set_monitorInterval_None w : Inv w → Inv (set_monitorInterval None w).
Proof. intros []. constructor; simpl; try assumption; done. Qed.

Lemma Inv_arm (cb : TimerCb) (ms : Z) (w : World) :
  Inv w →
  Inv (set_next_timer (S (next_timer w))
         (set_timers (<[next_timer w := mkTimer cb ms]> (timers w)) w)).
Proof.
  intros []. constructor; simpl; try assumption.
  - intros h Hh. rewrite lookup_insert_is_Some in Hh.
    destruct Hh as [<-|[_ Hh]]; [lia|]. apply inv_timers0 in Hh. lia.
  - intros h Hh. apply inv_monitorInterval0 in Hh. lia.
  - intros h Hh. apply inv_reconnectTimeout0 in Hh. lia.
Qed.

Lemma Inv_monitorConnection w : Inv w → Inv (WSClient.monitorConnection w).
Proof.
  intros H. unfold WSClient.monitorConnection, setTimeout.
  assert (Hgen : ∀ x, Inv x →
    Inv (set_monitorInterval (Some (next_timer x))
           (set_next_timer (S (next_timer x))
              (set_timers (<[next_timer x := mkTimer CbMonitor 30000]> (timers x)) x)))).
  { intros x Hx. pose proof (Inv_arm CbMonitor 30000 x Hx) as [].
    destruct Hx. constructor; simpl in *; try assumption.
    - intros h [= <-]. lia.
    - intros h [= <-] Hr. apply inv_reconnectTimeout1 in Hr. lia. }
  destruct (monitorInterval w); apply Hgen; [by apply Inv_clearTimeout|done].
Qed.

Lemma Inv_retryConnection rnd w :
  unit_interval rnd → Inv w → Inv (WSClient.retryConnection rnd w).
Proof.
  intros Hrnd H. unfold WSClient.retryConnection, setTimeout.
  pose proof (jitter_bounds rnd Hrnd) as Hj. unfold jitter in Hj.
  assert (Hgen : ∀ x, Inv x →
    Inv (set_retryDelay (Z.min 60 (retryDelay x + (Qfloor (rnd * 6) + 5)))
          (set_reconnectTimeout (Some (next_timer x))
            (set_next_timer (S (next_timer x))
              (set_timers (<[next_timer x := mkTimer CbReconnect (retryDelay x * 1000)]>
                             (timers x)) x))))).
  { intros x Hx. pose proof (Inv_arm CbReconnect (retryDelay x * 1000) x Hx) as [].
    destruct Hx. constructor; simpl in *; try assumption.
    - lia.
    - intros h [= <-]. lia.
    - intros h Hm [= <-]. apply inv_monitorInterval1 in Hm. lia. }
  destruct (reconnectTimeout w) as [h|];
    [exact (Hgen _ (Inv_clearTimeout h w H))|exact (Hgen w H)].
Qed.

Lemma Inv_on_socket (f : Socket → Socket) (k : nat) (w : World) :
  (∀ s, Forall (λ r, captures (snd r) ≠ Some 0) (listeners s) →
        Forall (λ r, captures (snd r) ≠ Some 0) (listeners (f s))) →
  Inv w → Inv (on_socket f k w).
Proof.
  intros Hf []. constructor; simpl; try assumption.
  intros k' s Hs. apply lookup_alter_Some in Hs as [(Hk & s0 & Hs0 & Hfs)|[_ Hs]].
  - subst s. apply Hf. by apply (inv_closures0 k').
  - by apply (inv_closures0 k').
Qed.

Lemma Forall_remove_first (P : EventName * Listener → Prop) x ls :
  Forall P ls → Forall P (remove_first x ls).
Proof.
  induction 1 as [|y ls Hy Hls IH]; simpl; [constructor|].
  destruct (decide (y = x)); [done|by constructor].
Qed.

Lemma Inv_removeEventListener k ev l w :
  Inv w → Inv (removeEventListener k ev l w).
Proof. apply Inv_on_socket. intros s. simpl. apply Forall_remove_first. Qed.

Lemma Inv_addEventListener k ev l w :
  captures l ≠ Some 0 → Inv w → Inv (addEventListener k ev l w).
Proof.
  intros Hl. apply Inv_on_socket. intros s Hs. simpl.
  apply Forall_app. split; [done|]. by constructor.
Qed.

Lemma Inv_sock_close k w : Inv w → Inv (sock_close k w).
Proof. apply Inv_on_socket. by intros s. Qed.

Lemma Inv_set_readyState k r w : Inv w → Inv (set_readyState k r w).
Proof. apply Inv_on_socket. by intros s. Qed.

Lemma Inv_setupConnection w : Inv w → Inv (WSClient.setupConnection w).
Proof.
  intros H. unfold WSClient.setupConnection, new_WebSocket.
  repeat (apply Inv_addEventListener; [done|]).
  apply Inv_set_ws. destruct H. constructor; simpl; try assumption.
  intros k s Hs. apply lookup_insert_Some in Hs as [[_ <-]|[_ Hs]].
  - constructor.
  - by apply (inv_closures0 k).
Qed.

Lemma Inv_close w : Inv w → Inv (WSClient.close w).
Proof.
  intros H. unfold WSClient.close. destruct (ws w) as [k|]; [|done].
  assert (H' : Inv (set_ws None (sock_close k
            (removeEventListener k EvError LRetryConnection
              (removeEventListener k EvMessage LOnMessage
                (removeEventListener k EvOpen LOnOpen
                  (removeEventListener k EvClose LOnClose w))))))).
  { apply Inv_set_ws, Inv_sock_close. by repeat apply Inv_removeEventListener. }
  destruct (reconnectTimeout _); [|done].
  by apply Inv_set_reconnectTimeout_None, Inv_clearTimeout.
Qed.

Lemma Inv_open w : Inv w → Inv (WSClient.open w).
Proof.
  intros H. unfold WSClient.open. destruct (ws w); [done|].
  pose proof (Inv_setupConnection w H) as H'.
  destruct (reconnectTimeout _); [|done].
  by apply Inv_set_reconnectTimeout_None, Inv_clearTimeout.
Qed.

Lemma Inv_join c w : Inv w → Inv (WSClient.join c w).
Proof.
  intros H. unfold WSClient.join. destruct (Set_has _ _); [done|].
  destruct (ws_open _); [apply Inv_send|]; by apply Inv_set_channels.
Qed.

Lemma Inv_leave c w : Inv w → Inv (WSClient.leave c w).
Proof.
  intros H. unfold WSClient.leave.
  destruct (ws_open _); [apply Inv_send|]; by apply Inv_set_channels.
Qed.

Lemma Inv_filter t v w : Inv w → Inv (WSClient.filter t v w).
Proof.
  intros H. unfold WSClient.filter. destruct (strict_eq _ _); [done|].
  destruct (ws_open _); [apply Inv_send|]; by apply Inv_set_filters.
Qed.

Lemma Inv_reconnect_fires w : Inv w → Inv (WSClient.reconnect_fires w).
Proof.
  intros H. by apply Inv_setupConnection, Inv_set_reconnectTimeout_None.
Qed.

Lemma Inv_monitor_fires now w : Inv w → Inv (WSClient.monitor_fires now w).
Proof.
  intros H. unfold WSClient.monitor_fires. apply Inv_monitorConnection.
  set (w1 := match ws_open w with
              | Some k => send k "ping" PNone w
              | None => w
              end).
  assert (H1 : Inv w1) by (subst w1; destruct (ws_open w); [by apply Inv_send|done]).
  clearbody w1. destruct (_ && _); [|done].
  destruct (ws_open _); [|by apply Inv_log].
  by apply Inv_open, Inv_close, Inv_log.
Qed.

Lemma Inv_joinRoomsFilter prev now w :
  Inv w → Inv (WSClient.joinRoomsFilter prev now w).
Proof.
  intros H. unfold WSClient.joinRoomsFilter. destruct (ws_open w) as [k|]; [|done].
  rewrite send_filters.
  set (w1 := send k "join" _ _).
  assert (H1 : Inv w1) by (by apply Inv_send, Inv_set_wire, Inv_set_uuid_seed).
  clearbody w1.
  destruct (_ && _ && _); [by apply Inv_send, Inv_log|by apply Inv_log].
Qed.

Lemma Inv_onOpen now w : now ≠ 0 → Inv w → Inv (WSClient.onOpen now w).
Proof.
  intros Hnow H. unfold WSClient.onOpen.
  set (w1 := WSClient.monitorConnection _).
  assert (H1 : Inv w1).
  { apply Inv_monitorConnection. destruct H. constructor; simpl; try assumption.
    - congruence.
    - lia. }
  assert (Hsusp : suspended w1 = suspended w).
  { subst w1. unfold WSClient.monitorConnection. simpl.
    by destruct (monitorInterval w). }
  clearbody w1. destruct (ws_open _); [|done].
  destruct H1, H. constructor; simpl; try assumption.
  rewrite Hsusp. apply Forall_app. split; [done|]. by constructor.
Qed.

Lemma Inv_lookup_suspended n prev w :
  Inv w → suspended w !! n = Some prev → prev ≠ Some 0.
Proof.
  intros [] Hn. rewrite Forall_forall in inv_suspended0.
  apply inv_suspended0. by eapply list_elem_of_lookup_2.
Qed.

Lemma Inv_onOpen_resume prev token now w :
  prev ≠ Some 0 → Inv w → Inv (WSClient.onOpen_resume prev token now w).
Proof.
  intros Hprev H. unfold WSClient.onOpen_resume.
  destruct (truthy_string token); [|by apply Inv_joinRoomsFilter].
  destruct (ws _) as [k|]; [|by apply Inv_set_uuid_seed].
  destruct (readyState <$> _) as [[]|].
  - by apply Inv_set_uuid_seed.
  - apply Inv_addEventListener; [done|]. by apply Inv_set_wire, Inv_set_uuid_seed.
  - apply Inv_addEventListener; [done|]. by apply Inv_set_uuid_seed.
  - apply Inv_addEventListener; [done|]. by apply Inv_set_uuid_seed.
  - by apply Inv_set_uuid_seed.
Qed.

Lemma Inv_onMsg a prev now d w : Inv w → Inv (WSClient.onMsg a prev now d w).
Proof.
  intros H. unfold WSClient.onMsg. destruct (parsed d); [|done].
  destruct (bool_decide _); [|done]. apply Inv_joinRoomsFilter.
  destruct (ws w); [by apply Inv_removeEventListener|done].
Qed.

Lemma Inv_onClose rnd w : unit_interval rnd → Inv w → Inv (WSClient.onClose rnd w).
Proof.
  intros Hrnd H. unfold WSClient.onClose. apply Inv_retryConnection; [done|].
  change (monitorInterval (set_ws None w)) with (monitorInterval w).
  destruct (monitorInterval w).
  - by apply Inv_set_monitorInterval_None, Inv_clearTimeout, Inv_set_ws.
  - by apply Inv_set_ws.
Qed.

Lemma Inv_onMessage now d w : Inv w → Inv (WSClient.onMessage now d w).
Proof.
  intros H. unfold WSClient.onMessage.
  destruct (is_string d); [|by apply Inv_set_lastPing].
  destruct (parsed d) as [msg|]; [|by apply Inv_set_lastPing].
  set (w1 := if _ && _ && _ then _ else _).
  assert (H1 : Inv w1).
  { subst w1.
    destruct (truthy_string (msg_i msg)) eqn:Ht; simpl; [|by apply Inv_set_lastPing].
    destruct (negb _ && negb _); [|by apply Inv_set_lastPing].
    destruct H. constructor; simpl; try assumption.
    intros Hi. rewrite Hi in Ht. discriminate. }
  clearbody w1. destruct (bool_decide _); [done|by apply Inv_set_emitted].
Qed.

Lemma Inv_invoke l o d w : valid_oracle o → Inv w → Inv (invoke l o d w).
Proof.
  intros [Hnow Hrnd] H. destruct l; simpl.
  - by apply Inv_onOpen.
  - by apply Inv_onClose.
  - by apply Inv_onMessage.
  - by apply Inv_retryConnection.
  - by apply Inv_onMsg.
Qed.

Lemma Inv_emit k ev o d w : valid_oracle o → Inv w → Inv (emit k ev o d w).
Proof.
  intros Ho H. unfold emit. destruct (sockets w !! k) as [s|]; [|done].
  revert w H. induction (listeners s) as [|r ls IH]; intros w H; simpl; [done|].
  apply IH. destruct (decide _); [by apply Inv_invoke|done].
Qed.

Lemma Inv_step o i w : valid_oracle o → Inv w → Inv (step o i w).
Proof.
  intros Ho H. destruct i; simpl.
  - by apply Inv_open.
  - by apply Inv_close.
  - by apply Inv_join.
  - by apply Inv_leave.
  - by apply Inv_filter.
  - destruct (readyState <$> _) as [[]|]; try done.
    by apply Inv_emit, Inv_set_readyState.
  - destruct (readyState <$> _) as [[]|]; try done;
      by apply Inv_emit, Inv_set_readyState.
  - destruct (readyState <$> _) as [[]|]; try done;
      by apply Inv_emit, Inv_set_readyState.
  - destruct (readyState <$> _) as [[]|]; try done. by apply Inv_emit.
  - destruct (timers w !! h) as [t|]; [|done]. destruct (callback t).
    + by apply Inv_reconnect_fires, Inv_set_timers_delete.
    + by apply Inv_monitor_fires, Inv_set_timers_delete.
  - destruct (suspended w !! n) as [prev|] eqn:Hn; [|done].
    apply Inv_onOpen_resume; [by eapply Inv_lookup_suspended|].
    destruct H. constructor; simpl; try assumption.
    by apply Forall_delete.
  - by apply Inv_set_heap.
Qed.

Lemma Inv_constructor (replayMaxTime : Z) : Inv (WSClient.constructor replayMaxTime).
Proof.
  constructor; simpl; try done.
  - intros h [t Ht]. by rewrite lookup_empty in Ht.
Qed.

Lemma Inv_run (tr : list (Oracle * Input)) (w : World) :
  valid_trace tr → Inv w → Inv (run tr w).
Proof.
  revert w. induction tr as [|[o i] tr IH]; intros w Htr H; simpl; [done|].
  apply Forall_cons in Htr as [Ho Htr]. apply IH; [done|]. by apply Inv_step.
Qed.

Lemma reachable_Inv (replayMaxTime : Z) (tr : list (Oracle * Input)) :
  valid_trace tr → Inv (run tr (WSClient.constructor replayMaxTime)).
Proof. intros Htr. apply Inv_run; [done|apply Inv_constructor]. Qed.

(** In a reachable world the last-seen id is never the empty string, no
    captured connection time is 0, the delay lies within [0,60], and the
    two timer handles are distinct and older than the next handle. *)
Lemma reachable_side_conditions (replayMaxTime : Z) (tr : list (Oracle * Input)) :
  valid_trace tr →
  let w := run tr (WSClient.constructor replayMaxTime) in
  lastMessage w ≠ Some EmptyString
  ∧ (∀ n prev, suspended w !! n = Some prev → prev ≠ Some 0)
  ∧ (∀ k s ev a prev, sockets w !! k = Some s →
       (ev, LOnMsg a prev) ∈ listeners s → prev ≠ Some 0)
  ∧ 0 ≤ retryDelay w ≤ 60
  ∧ (∀ h, monitorInterval w = Some h →
       h ≠ next_timer w ∧ reconnectTimeout w ≠ Some h).
Proof.
  intros Htr w. pose proof (reachable_Inv replayMaxTime tr Htr) as H. fold w in H.
  split; [apply H|]. split; [intros n prev; by apply Inv_lookup_suspended|].
  split; [|split; [apply H|]].
  - intros k s ev a prev Hs Hin.
    pose proof (inv_closures w H k s Hs) as Hall. rewrite Forall_forall in Hall.
    apply (Hall _ Hin).
  - intros h Hm. split; [|by apply (inv_distinct w H)].
    pose proof (inv_monitorInterval w H h Hm). lia.
Qed.

(** * Further properties *)

(** ** Registry calls *)

Lemma ws_open_send k t p w : ws_open (send k t p w) = ws_open w.
Proof. reflexivity. Qed.

(** X1.  [join(c)] leaves [c] in the channel set.  For a channel that is
    already a member it changes nothing at all; for a new one it appends
    [c] to the set and, with the transport open, sends one [join] frame
    carrying [[c]] (none otherwise).  A second [join(c)] is always a
    no-op, so two calls send at most one frame. *)
Theorem join_idempotent (c : string) (w : World) :
  let w1 := WSClient.join c w in
  (c ∈ channels w1)
  ∧ (c ∈ channels w → w1 = w)
  ∧ (c ∉ channels w →
       channels w1 = channels w ++ [c]
       ∧ wire w1 = match ws_open w with
                   | Some k => wire w ++ [(k, mkFrame (uuid_of (uuid_seed w)) "join" (PChannels [c]))]
                   | None => wire w
                   end)
  ∧ WSClient.join c w1 = w1.
Proof.
  intros w1.
  assert (Hin : c ∈ channels w → w1 = w).
  { intros H. subst w1. unfold WSClient.join, Set_has. by rewrite bool_decide_eq_true_2. }
  assert (Hout : c ∉ channels w →
       channels w1 = channels w ++ [c]
       ∧ wire w1 = match ws_open w with
                   | Some k => wire w ++ [(k, mkFrame (uuid_of (uuid_seed w)) "join" (PChannels [c]))]
                   | None => wire w
                   end).
  { intros H. subst w1. unfold WSClient.join, Set_add, Set_has.
    rewrite bool_decide_eq_false_2 by done.
    change (ws_open (set_channels (channels w ++ [c]) w)) with (ws_open w).
    destruct (ws_open w); done. }
  assert (Hmem : c ∈ channels w1).
  { destruct (decide (c ∈ channels w)) as [H|H].
    - by rewrite (Hin H).
    - destruct (Hout H) as [-> _]. apply elem_of_app. right. by apply list_elem_of_singleton. }
  split; [done|]. split; [done|]. split; [done|].
  unfold WSClient.join at 1, Set_has. by rewrite bool_decide_eq_true_2.
Qed.

Lemma join_idempotent_witness :
  let w1 := WSClient.join "server:activity:1" connected_world in
  wire w1 = wire connected_world
            ++ [(0%nat, mkFrame "uuid-1" "join" (PChannels ["server:activity:1"]))]
  ∧ WSClient.join "server:activity:1" w1 = w1.
Proof.
  intros w1.
  assert (Habsent : "server:activity:1" ∉ channels connected_world).
  { vm_compute. intros H. repeat (apply elem_of_cons in H as [H|H]; [discriminate|]).
    inversion H. }
  destruct (join_idempotent "server:activity:1" connected_world)
    as (_ & _ & Hnew & Hagain).
  split; [|exact Hagain].
  destruct (Hnew Habsent) as [_ Hwire].
  subst w1. rewrite Hwire. vm_compute. reflexivity.
Defined.

Lemma Set_delete_app (s t : list string) (x : string) :
  Set_delete (s ++ t) x = Set_delete s x ++ Set_delete t x.
Proof.
  induction s as [|y s IH]; simpl; [done|].
  destruct (decide (y = x)); [done|]. by rewrite IH.
Qed.

(** X2.  For a channel that is not a member, [join(c)] followed by
    [leave(c)] gives back the channel set as it was (and the filters); on
    an open transport the two calls put a [join] frame and then a [leave]
    frame for [c] on the wire, on a closed one nothing. *)
Theorem join_then_leave (c : string) (w : World) :
  c ∉ channels w →
  let w1 := WSClient.join c w in
  let w2 := WSClient.leave c w1 in
  channels w2 = channels w
  ∧ filters w2 = filters w
  ∧ wire w2 =
    match ws_open w with
    | Some k =>
        wire w ++ [(k, mkFrame (uuid_of (uuid_seed w)) "join" (PChannels [c]));
                   (k, mkFrame (uuid_of (S (uuid_seed w))) "leave" (PChannels [c]))]
    | None => wire w
    end.
Proof.
  intros Hc w1 w2. subst w2 w1.
  unfold WSClient.join, Set_add, Set_has. rewrite bool_decide_eq_false_2 by done.
  change (ws_open (set_channels (channels w ++ [c]) w)) with (ws_open w).
  unfold WSClient.leave.
  destruct (ws_open w) as [k|] eqn:Hopen; simpl.
  - change (ws_open (set_channels _ (send k "join" (PChannels [c])
                       (set_channels (channels w ++ [c]) w)))) with (ws_open w).
    rewrite Hopen. simpl.
    rewrite Set_delete_app, Set_delete_absent by done. simpl.
    destruct (decide (c = c)); [|done]. rewrite app_nil_r, <- app_assoc. done.
  - change (ws_open (set_channels _ (set_channels (channels w ++ [c]) w)))
      with (ws_open w).
    rewrite Hopen. simpl.
    rewrite Set_delete_app, Set_delete_absent by done. simpl.
    destruct (decide (c = c)); [|done]. by rewrite app_nil_r.
Qed.

Lemma join_then_leave_witness :
  let w2 := WSClient.leave "server:activity:1"
              (WSClient.join "server:activity:1" connected_world) in
  channels w2 = channels connected_world
  ∧ wire w2 = wire connected_world
              ++ [(0%nat, mkFrame "uuid-1" "join" (PChannels ["server:activity:1"]));
                  (0%nat, mkFrame "uuid-2" "leave" (PChannels ["server:activity:1"]))].
Proof.
  intros w2.
  assert (Habsent : "server:activity:1" ∉ channels connected_world).
  { vm_compute. intros H. repeat (apply elem_of_cons in H as [H|H]; [discriminate|]).
    inversion H. }
  destruct (join_then_leave "server:activity:1" connected_world Habsent)
    as (H1 & _ & H2).
  subst w2. split; [exact H1|]. rewrite H2. vm_compute. reflexivity.
Defined.


Lemma strict_eq_eq (a b : any) : strict_eq a b = true ↔ a = b.
Proof.
  destruct a, b; simpl; try (split; [discriminate|congruence]); try done.
  - rewrite bool_decide_eq_true. split; congruence.
  - rewrite bool_decide_eq_true. split; congruence.
Qed.

Lemma Map_get_set_ne (m : list (string * any)) (key key' : string) (v : any) :
  key' ≠ key → Map_get (Map_set m key v) key' = Map_get m key'.
Proof.
  intros Hne. induction m as [|[k v'] m IH]; simpl.
  - destruct (decide (key = key')); congruence.
  - destruct (decide (k = key)) as [->|Hk]; simpl.
    + destruct (decide (key = key')); congruence.
    + destruct (decide (k = key')); [done|]. apply IH.
Qed.

Lemma Map_set_keys (m : list (string * any)) (key : string) (v : any) :
  map fst (Map_set m key v) =
  if bool_decide (key ∈ map fst m) then map fst m else map fst m ++ [key].
Proof.
  induction m as [|[k v'] m IH]; simpl; [done|].
  destruct (decide (k = key)) as [->|Hk]; simpl.
  - clear IH. case_bool_decide as H; [done|]. exfalso. apply H, elem_of_cons. by left.
  - rewrite IH. repeat case_bool_decide; try done; exfalso;
      rewrite elem_of_cons in *; intuition congruence.
Qed.

Lemma Map_set_NoDup (m : list (string * any)) (key : string) (v : any) :
  NoDup (map fst m) → NoDup (map fst (Map_set m key v)).
Proof.
  intros H. rewrite Map_set_keys. case_bool_decide as Hin; [done|].
  apply NoDup_app. split; [done|]. split; [|apply NoDup_singleton].
  intros x Hx Hx'. apply list_elem_of_singleton in Hx'. by subst.
Qed.

(** X3.  After [filter(type, v)] the map answers [v] for [type] and what
    it answered before for every other type.  The key order of the map is
    kept: nothing is added, or [type] is added at the end when it was not
    a key; a map with one entry per type stays so.  The channel set is not
    touched. *)
Theorem filter_last_write_wins (type : string) (v : any) (w : World) :
  let w' := WSClient.filter type v w in
  Map_get (filters w') type = v
  ∧ (∀ type', type' ≠ type → Map_get (filters w') type' = Map_get (filters w) type')
  ∧ (∃ tail, map fst (filters w') = map fst (filters w) ++ tail
             ∧ (tail = [] ∨ (tail = [type] ∧ type ∉ map fst (filters w))))
  ∧ (NoDup (map fst (filters w)) → NoDup (map fst (filters w')))
  ∧ channels w' = channels w.
Proof.
  intros w'. subst w'.
  destruct (strict_eq (Map_get (filters w) type) v) eqn:E.
  - assert (Hw : WSClient.filter type v w = w) by (unfold WSClient.filter; by rewrite E).
    rewrite Hw. apply strict_eq_eq in E.
    split; [done|]. split; [done|]. split; [|done].
    exists []. rewrite app_nil_r. auto.
  - rewrite (filter_filters type v w E).
    split; [apply Map_get_set|]. split; [intros; by apply Map_get_set_ne|].
    split; [|split; [apply Map_set_NoDup|]].
    + rewrite Map_set_keys. case_bool_decide as Hin.
      * exists []. rewrite app_nil_r. auto.
      * exists [type]. auto.
    + unfold WSClient.filter. rewrite E.
      change (ws_open (set_filters (Map_set (filters w) type v) w)) with (ws_open w).
      by destruct (ws_open w).
Qed.

Lemma filter_last_write_wins_witness :
  let w := WSClient.filter "ACTIVITY" (Obj 1) connected_world in
  let w' := WSClient.filter "ACTIVITY" (Obj 2) w in
  Map_get (filters w') "ACTIVITY" = Obj 2 ∧ map fst (filters w') = ["ACTIVITY"].
Proof.
  intros w w'.
  destruct (filter_last_write_wins "ACTIVITY" (Obj 2) w) as (H & _).
  split; [exact H|]. vm_compute. reflexivity.
Defined.

(** X4.  [open()] with a transport handle changes nothing.  Without one
    it creates a fresh connecting socket that carries the four lifecycle
    listeners and makes it the handle, leaves every other socket alone,
    cancels the pending reconnect timer (and no other timer), and sends
    nothing.  Calling [open()] again right after is a no-op. *)
Theorem open_once (w : World) :
  let w' := WSClient.open w in
  (is_Some (ws w) → w' = w)
  ∧ (ws w = None →
       ws w' = Some (next_socket w)
       ∧ sockets w' !! next_socket w = Some (mkSocket CONNECTING lifecycle_listeners)
       ∧ (∀ k, k ≠ next_socket w → sockets w' !! k = sockets w !! k)
       ∧ reconnectTimeout w' = None
       ∧ (∀ h, reconnectTimeout w = Some h → timers w' !! h = None)
       ∧ (∀ h, reconnectTimeout w ≠ Some h → timers w' !! h = timers w !! h)
       ∧ wire w' = wire w)
  ∧ WSClient.open w' = w'.
Proof.
  intros w'.
  assert (Hsome : is_Some (ws w) → w' = w).
  { intros [k Hk]. subst w'. unfold WSClient.open. by rewrite Hk. }
  assert (Hnone : ws w = None → is_Some (ws w') ∧
       (ws w' = Some (next_socket w)
       ∧ sockets w' !! next_socket w = Some (mkSocket CONNECTING lifecycle_listeners)
       ∧ (∀ k, k ≠ next_socket w → sockets w' !! k = sockets w !! k)
       ∧ reconnectTimeout w' = None
       ∧ (∀ h, reconnectTimeout w = Some h → timers w' !! h = None)
       ∧ (∀ h, reconnectTimeout w ≠ Some h → timers w' !! h = timers w !! h)
       ∧ wire w' = wire w)).
  { intros Hws. subst w'. unfold WSClient.open. rewrite Hws.
    destruct (setupConnection_spec w) as (H1 & H2 & H3 & H4 & _).
    assert (Hother : ∀ k, k ≠ next_socket w →
              sockets (WSClient.setupConnection w) !! k = sockets w !! k).
    { intros k Hk. unfold WSClient.setupConnection, new_WebSocket, addEventListener, on_socket.
      simpl. rewrite !lookup_alter_ne, lookup_insert_ne by done. done. }
    change (reconnectTimeout (WSClient.setupConnection w)) with (reconnectTimeout w).
    set (x := WSClient.setupConnection w) in *.
    assert (Hwire : wire x = wire w) by reflexivity.
    destruct (reconnectTimeout w) as [h|] eqn:Er.
    - change (ws (set_reconnectTimeout None (clearTimeout h x))) with (ws x).
      change (sockets (set_reconnectTimeout None (clearTimeout h x))) with (sockets x).
      change (timers (set_reconnectTimeout None (clearTimeout h x))) with (delete h (timers x)).
      change (wire (set_reconnectTimeout None (clearTimeout h x))) with (wire x).
      change (reconnectTimeout (set_reconnectTimeout None (clearTimeout h x))) with (@None nat).
      rewrite H1, H3. split; [eauto|]. repeat split; try done.
      + intros h' [= <-]. apply lookup_delete_eq.
      + intros h' Hh'. rewrite lookup_delete_ne; [done|congruence].
    - rewrite H1, H3, H4. split; [eauto|]. repeat split; try done. }
  split; [done|]. split; [intros H; by apply Hnone|].
  destruct (ws w) as [k|] eqn:Hws.
  - rewrite Hsome by eauto. unfold WSClient.open. by rewrite Hws.
  - destruct (Hnone eq_refl) as ([k Hk] & _). unfold WSClient.open at 1. by rewrite Hk.
Qed.

Lemma open_once_witness :
  let w' := WSClient.open disconnected_world in
  reconnectTimeout disconnected_world = Some 1%nat
  ∧ ws w' = Some 1%nat ∧ timers w' !! 1%nat = None ∧ WSClient.open w' = w'.
Proof.
  intros w'. destruct (open_once disconnected_world) as (_ & Hnew & Hagain).
  destruct Hnew as (Hws & _ & _ & _ & Hcancel & _); [vm_compute; reflexivity|].
  split; [vm_compute; reflexivity|]. split; [exact Hws|].
  split; [apply Hcancel; vm_compute; reflexivity|exact Hagain].
Defined.

(** ** Liveness monitor *)





(** ** Auth handshake *)







(** ** Dispatcher over a sequence of frames *)



(** ** What each handler leaves untouched *)

Ltac untouched :=
  repeat (simpl;
          match goal with
          | |- context [match ?x with _ => _ end] => destruct x
          end);
  repeat split; reflexivity.

Lemma joinRoomsFilter_untouched prev now w :
  let w' := WSClient.joinRoomsFilter prev now w in
  registry w' = registry w ∧ tracking w' = tracking w ∧ timing w' = timing w
  ∧ sockets w' = sockets w ∧ ws w' = ws w.
Proof.
  unfold WSClient.joinRoomsFilter. destruct (ws_open w); [|done].
  rewrite send_filters. untouched.
Qed.

Lemma join_untouched c w :
  let w' := WSClient.join c w in
  tracking w' = tracking w ∧ timing w' = timing w ∧ sockets w' = sockets w.
Proof. unfold WSClient.join. untouched. Qed.

Lemma leave_untouched c w :
  let w' := WSClient.leave c w in
  tracking w' = tracking w ∧ timing w' = timing w ∧ sockets w' = sockets w.
Proof. unfold WSClient.leave. untouched. Qed.

Lemma filter_untouched t v w :
  let w' := WSClient.filter t v w in
  tracking w' = tracking w ∧ timing w' = timing w ∧ sockets w' = sockets w.
Proof. unfold WSClient.filter. untouched. Qed.

Lemma close_untouched w :
  let w' := WSClient.close w in
  registry w' = registry w ∧ tracking w' = tracking w.
Proof. unfold WSClient.close. untouched. Qed.

Lemma setupConnection_untouched w :
  let w' := WSClient.setupConnection w in
  registry w' = registry w ∧ tracking w' = tracking w ∧ timing w' = timing w.
Proof. unfold WSClient.setupConnection. untouched. Qed.

Lemma open_untouched w :
  let w' := WSClient.open w in
  registry w' = registry w ∧ tracking w' = tracking w.
Proof. unfold WSClient.open, WSClient.setupConnection. untouched. Qed.

Lemma retryConnection_untouched rnd w :
  let w' := WSClient.retryConnection rnd w in
  registry w' = registry w ∧ tracking w' = tracking w ∧ sockets w' = sockets w.
Proof. unfold WSClient.retryConnection. untouched. Qed.

Lemma onClose_untouched rnd w :
  let w' := WSClient.onClose rnd w in
  registry w' = registry w ∧ tracking w' = tracking w ∧ sockets w' = sockets w.
Proof. unfold WSClient.onClose, WSClient.retryConnection. untouched. Qed.

Lemma monitorConnection_untouched w :
  let w' := WSClient.monitorConnection w in
  registry w' = registry w ∧ tracking w' = tracking w ∧ sockets w' = sockets w
  ∧ ws w' = ws w.
Proof. unfold WSClient.monitorConnection. untouched. Qed.

Lemma onOpen_untouched now w :
  let w' := WSClient.onOpen now w in
  registry w' = registry w ∧ tracking w' = tracking w ∧ sockets w' = sockets w.
Proof.
  unfold WSClient.onOpen.
  destruct (monitorConnection_untouched
              (set_retryDelay 0 (set_lastPing (Some now) (set_lastConnected (Some now) w))))
    as (H1 & H2 & H3 & _).
  change (registry (set_retryDelay _ _)) with (registry w) in H1.
  change (tracking (set_retryDelay _ _)) with (tracking w) in H2.
  change (sockets (set_retryDelay _ _)) with (sockets w) in H3.
  revert H1 H2 H3. generalize (WSClient.monitorConnection
    (set_retryDelay 0 (set_lastPing (Some now) (set_lastConnected (Some now) w)))).
  intros w1 H1 H2 H3. destruct (ws_open w1); simpl; done.
Qed.

Lemma onMessage_untouched now d w :
  let w' := WSClient.onMessage now d w in
  registry w' = registry w ∧ timing w' = timing w ∧ sockets w' = sockets w.
Proof. unfold WSClient.onMessage. untouched. Qed.

Lemma onMsg_untouched a prev now d w :
  let w' := WSClient.onMsg a prev now d w in
  registry w' = registry w ∧ tracking w' = tracking w ∧ timing w' = timing w.
Proof.
  unfold WSClient.onMsg. destruct (parsed d); [|done]. destruct (bool_decide _); [|done].
  set (w1 := match ws w with Some k => _ | None => w end).
  destruct (joinRoomsFilter_untouched prev now w1) as (H1 & H2 & H3 & _).
  rewrite H1, H2, H3. subst w1. by destruct (ws w).
Qed.

Lemma onOpen_resume_untouched prev token now w :
  let w' := WSClient.onOpen_resume prev token now w in
  registry w' = registry w ∧ tracking w' = tracking w ∧ timing w' = timing w.
Proof.
  unfold WSClient.onOpen_resume. destruct (truthy_string token).
  - untouched.
  - destruct (joinRoomsFilter_untouched prev now w) as (H1 & H2 & H3 & _). done.
Qed.

Lemma monitor_fires_untouched now w :
  let w' := WSClient.monitor_fires now w in
  registry w' = registry w ∧ tracking w' = tracking w.
Proof.
  unfold WSClient.monitor_fires.
  set (w1 := match ws_open w with Some k => send k "ping" PNone w | None => w end).
  assert (H1 : registry w1 = registry w ∧ tracking w1 = tracking w)
    by (subst w1; by destruct (ws_open w)).
  clearbody w1.
  set (w2 := if _ && _ then _ else _).
  assert (H2 : registry w2 = registry w ∧ tracking w2 = tracking w).
  { subst w2. destruct (_ && _); [|done]. destruct (ws_open _); [|done].
    destruct (open_untouched (WSClient.close (log Stalled w1))) as [-> ->].
    destruct (close_untouched (log Stalled w1)) as [-> ->]. done. }
  clearbody w2.
  destruct (monitorConnection_untouched w2) as (-> & -> & _). done.
Qed.

Lemma invoke_registry l o d w : registry (invoke l o d w) = registry w.
Proof.
  destruct l; simpl.
  - apply onOpen_untouched.
  - apply onClose_untouched.
  - apply onMessage_untouched.
  - apply retryConnection_untouched.
  - apply onMsg_untouched.
Qed.

Lemma emit_registry k ev o d w : registry (emit k ev o d w) = registry w.
Proof.
  unfold emit. destruct (sockets w !! k) as [s|]; [|done].
  revert w. induction (listeners s) as [|r ls IH]; intros w; simpl; [done|].
  rewrite IH. destruct (decide _); [apply invoke_registry|done].
Qed.

(** The registry after one turn of the event loop. *)
Lemma step_registry (o : Oracle) (i : Input) (w : World) :
  registry (step o i w) =
  match i with
  | Call_join c => (Set_add (channels w) c, filters w)
  | Call_leave c => (Set_delete (channels w) c, filters w)
  | Call_filter t v =>
      (channels w,
       if strict_eq (Map_get (filters w) t) v then filters w
       else Map_set (filters w) t v)
  | _ => registry w
  end.
Proof.
  destruct i; simpl.
  - apply open_untouched.
  - apply close_untouched.
  - unfold WSClient.join, Set_add. destruct (Set_has _ _); [done|].
    by destruct (ws_open _).
  - unfold WSClient.leave. by destruct (ws_open _).
  - unfold WSClient.filter. destruct (strict_eq _ _); [done|]. by destruct (ws_open _).
  - destruct (readyState <$> _) as [[]|]; try done. by rewrite emit_registry.
  - destruct (readyState <$> _) as [[]|]; try done; by rewrite emit_registry.
  - destruct (readyState <$> _) as [[]|]; try done; by rewrite emit_registry.
  - destruct (readyState <$> _) as [[]|]; try done. by rewrite emit_registry.
  - destruct (timers w !! h) as [t|]; [|done]. destruct (callback t).
    + unfold WSClient.reconnect_fires.
      by destruct (setupConnection_untouched
                     (set_reconnectTimeout None (set_timers (delete h (timers w)) w)))
        as [-> _].
    + by destruct (monitor_fires_untouched (now o) (set_timers (delete h (timers w)) w))
        as [-> _].
  - destruct (suspended w !! n); [|done].
    by destruct (onOpen_resume_untouched o0 token (now o)
                   (set_suspended (delete n (suspended w)) w)) as [-> _].
  - done.
Qed.

Lemma registry_eq (w w' : World) :
  registry w' = registry w → channels w' = channels w ∧ filters w' = filters w.
Proof. unfold registry. intros [= Hc Hf]. done. Qed.

(** X9.  A run in which the caller makes no [join], [leave] or [filter]
    call leaves the channel set and the filter map as they were: socket
    events, timers, token resolutions, [open()] and [close()] never write
    the registry. *)
Theorem registry_written_by_calls_only (tr : list (Oracle * Input)) (w : World) :
  Forall (λ x, ¬ registry_call x) tr →
  registry (run tr w) = registry w.
Proof.
  intros Htr. revert w. induction Htr as [|[o i] tr Hi Htr IH]; intros w; [done|].
  simpl. rewrite IH, step_registry.
  destruct i; try done; exfalso; by apply Hi.
Qed.

Lemma registry_written_by_calls_only_witness :
  let tr := [ (at_time 5000, Sock_error 0); (at_time 5000, Sock_close 0);
              (at_time 13000, Timer_fires 2); (at_time 13200, Sock_open 1);
              (at_time 13201, Token_resolves 0 None); (at_time 13300, Call_close) ] in
  ws (run tr connected_world) = None
  ∧ channels (run tr connected_world) = channels connected_world
  ∧ filters (run tr connected_world) = filters connected_world.
Proof.
  intros tr.
  assert (H : registry (run tr connected_world) = registry connected_world).
  { apply registry_written_by_calls_only. repeat constructor; intros H; exact H. }
  destruct (registry_eq _ _ H) as [Hc Hf].
  split; [vm_compute; reflexivity|]. split; [exact Hc|exact Hf].
Defined.

(** ** The registry along a run *)

Lemma Set_delete_NoDup (s : list string) (x : string) :
  NoDup s → NoDup (Set_delete s x).
Proof.
  induction 1 as [|y s Hy Hs IH]; simpl; [constructor|].
  destruct (decide (y = x)); [done|]. constructor; [|done].
  rewrite Set_delete_elem. tauto.
Qed.

Lemma Set_add_NoDup (s : list string) (x : string) :
  NoDup s → NoDup (Set_add s x).
Proof.
  intros H. unfold Set_add, Set_has. case_bool_decide as Hin; [done|].
  apply NoDup_app. split; [done|]. split; [|apply NoDup_singleton].
  intros y Hy Hy'. apply list_elem_of_singleton in Hy'. by subst.
Qed.


Lemma Registry_ok_step o i w : Registry_ok w → Registry_ok (step o i w).
Proof.
  intros [Hc Hf]. unfold Registry_ok.
  pose proof (step_registry o i w) as H. unfold registry in H.
  assert (H1 := f_equal fst H). assert (H2 := f_equal snd H). simpl in H1, H2.
  rewrite H1, H2. clear H H1 H2. destruct i; try done; simpl.
  - split; [by apply Set_add_NoDup|done].
  - split; [by apply Set_delete_NoDup|done].
  - split; [done|]. destruct (strict_eq _ _); [done|]. by apply Map_set_NoDup.
Qed.

(** X10.  In every world a run reaches from a new client, the channel set
    holds each channel once and the filter map has one entry per type. *)
Theorem registry_has_no_duplicates (replayMaxTime : Z) (tr : list (Oracle * Input)) :
  let w := run tr (WSClient.constructor replayMaxTime) in
  NoDup (channels w) ∧ NoDup (map fst (filters w)).
Proof.
  intros w. subst w.
  assert (H : ∀ w, Registry_ok w → Registry_ok (run tr w)).
  { induction tr as [|[o i] tr IH]; intros w Hw; simpl; [done|].
    by apply IH, Registry_ok_step. }
  apply H. split; constructor.
Qed.



(** X12.  While the transport is not open, any sequence of [join],
    [leave] and [filter] calls sends nothing, draws no identifier, touches
    no timer and leaves the transport not open. *)
Theorem offline_calls_are_deferred (tr : list (Oracle * Input)) (w : World) :
  Forall registry_call tr →
  ws_open w = None →
  let w' := run tr w in
  wire w' = wire w ∧ ws_open w' = None ∧ timing w' = timing w
  ∧ uuid_seed w' = uuid_seed w.
Proof.
  intros Htr. revert w. induction Htr as [|[o i] tr Hi Htr IH]; intros w Hopen; [done|].
  simpl.
  assert (Hstep : wire (step o i w) = wire w ∧ ws_open (step o i w) = None
                  ∧ timing (step o i w) = timing w
                  ∧ uuid_seed (step o i w) = uuid_seed w).
  { destruct i; try done; simpl.
    - unfold WSClient.join. destruct (Set_has _ _); [done|].
      change (ws_open (set_channels (Set_add (channels w) channel) w)) with (ws_open w).
      by rewrite Hopen.
    - unfold WSClient.leave.
      change (ws_open (set_channels (Set_delete (channels w) channel) w)) with (ws_open w).
      by rewrite Hopen.
    - unfold WSClient.filter. destruct (strict_eq _ _); [done|].
      change (ws_open (set_filters (Map_set (filters w) type filter) w)) with (ws_open w).
      by rewrite Hopen. }
  destruct Hstep as (S1 & S2 & S3 & S4).
  destruct (IH (step o i w) S2) as (I1 & I2 & I3 & I4).
  by rewrite I1, I3, I4, S1, S3, S4.
Qed.

Lemma offline_calls_are_deferred_witness :
  let tr := [ (at_time 1001, Call_join "server:events:1");
              (at_time 1002, Call_filter "ACTIVITY" (Obj 1));
              (at_time 1003, Call_leave "server:events:1") ] in
  let w := WSClient.open (WSClient.constructor 300000) in
  ws w = Some 0%nat ∧ wire (run tr w) = [].
Proof.
  intros tr w.
  destruct (offline_calls_are_deferred tr w) as (H & _).
  - repeat constructor.
  - vm_compute. reflexivity.
  - split; [vm_compute; reflexivity|]. rewrite H. vm_compute. reflexivity.
Defined.

(** ** A property kept by every turn of the event loop *)

Section StepInvariant.
Variable P : World → Prop.
Variable good : Oracle → Prop.

Hypothesis P_open : ∀ w, P w → P (WSClient.open w).
Hypothesis P_close : ∀ w, P w → P (WSClient.close w).
Hypothesis P_join : ∀ c w, P w → P (WSClient.join c w).
Hypothesis P_leave : ∀ c w, P w → P (WSClient.leave c w).
Hypothesis P_filter : ∀ t v w, P w → P (WSClient.filter t v w).
Hypothesis P_readyState : ∀ k r w, P w → P (set_readyState k r w).
Hypothesis P_invoke : ∀ l o d w, good o → P w → P (invoke l o d w).
Hypothesis P_timer : ∀ o h t w, good o → P w → timers w !! h = Some t →
  P (match callback t with
     | CbReconnect =>
         WSClient.reconnect_fires (set_timers (delete h (timers w)) w)
     | CbMonitor =>
         WSClient.monitor_fires (now o) (set_timers (delete h (timers w)) w)
     end).
Hypothesis P_resume : ∀ o n prev token w, good o → P w →
  suspended w !! n = Some prev →
  P (WSClient.onOpen_resume prev token (now o)
       (set_suspended (delete n (suspended w)) w)).
Hypothesis P_heap : ∀ r c w, P w → P (set_heap (<[r := c]> (heap w)) w).

Lemma emit_preserves k ev o d w : good o → P w → P (emit k ev o d w).
Proof.
  intros Ho H. unfold emit. destruct (sockets w !! k) as [s|]; [|done].
  revert w H. induction (listeners s) as [|r ls IH]; intros w H; simpl; [done|].
  apply IH. destruct (decide _); [by apply P_invoke|done].
Qed.

Lemma step_preserves o i w : good o → P w → P (step o i w).
Proof.
  intros Ho H. destruct i; simpl; auto.
  - destruct (readyState <$> _) as [[]|]; try done.
    by apply emit_preserves, P_readyState.
  - destruct (readyState <$> _) as [[]|]; try done;
      by apply emit_preserves, P_readyState.
  - destruct (readyState <$> _) as [[]|]; try done;
      by apply emit_preserves, P_readyState.
  - destruct (readyState <$> _) as [[]|]; try done. by apply emit_preserves.
  - destruct (timers w !! h) as [t|] eqn:Ht; [|done]. by apply P_timer.
  - destruct (suspended w !! n) as [prev|] eqn:Hn; [|done]. by apply P_resume.
Qed.

Lemma run_preserves tr w :
  Forall (λ x, good (fst x)) tr → P w → P (run tr w).
Proof.
  revert w. induction tr as [|[o i] tr IH]; intros w Htr H; simpl; [done|].
  apply Forall_cons in Htr as [Ho Htr]. apply IH; [done|]. by apply step_preserves.
Qed.
End StepInvariant.

(** ** Timers *)

Lemma Timers_ok_frame (w w' : World) : timing w' = timing w → Timers_ok w → Timers_ok w'.
Proof. unfold timing, Timers_ok. intros [= -> -> ->]. done. Qed.

Lemma Timers_ok_fired (h : nat) (w : World) :
  Timers_ok w → Timers_ok (set_timers (delete h (timers w)) w).
Proof.
  intros H h' t Ht. simpl in *. apply lookup_delete_Some in Ht as [_ Ht].
  by apply (H h' t).
Qed.

Lemma Timers_ok_monitorConnection (w : World) :
  Timers_ok w → Timers_ok (WSClient.monitorConnection w).
Proof.
  intros H. unfold WSClient.monitorConnection.
  destruct (monitorInterval w) as [h0|] eqn:Hm; simpl; intros h t Ht; simpl in *.
  - apply lookup_insert_Some in Ht as [[<- <-]|[Hne Ht]]; [done|].
    apply lookup_delete_Some in Ht as [Hne0 Ht].
    specialize (H h t Ht). destruct (callback t); [done|]. congruence.
  - apply lookup_insert_Some in Ht as [[<- <-]|[Hne Ht]]; [done|].
    specialize (H h t Ht). destruct (callback t); [done|]. congruence.
Qed.

Lemma Timers_ok_retryConnection (rnd : Q) (w : World) :
  Timers_ok w → Timers_ok (WSClient.retryConnection rnd w).
Proof.
  intros H. unfold WSClient.retryConnection.
  destruct (reconnectTimeout w) as [h0|] eqn:Hm; simpl; intros h t Ht; simpl in *.
  - apply lookup_insert_Some in Ht as [[<- <-]|[Hne Ht]]; [done|].
    apply lookup_delete_Some in Ht as [Hne0 Ht].
    specialize (H h t Ht). destruct (callback t); [congruence|done].
  - apply lookup_insert_Some in Ht as [[<- <-]|[Hne Ht]]; [done|].
    specialize (H h t Ht). destruct (callback t); [congruence|done].
Qed.

(** Cancelling the timer a field names and clearing the field. *)
Lemma Timers_ok_cancel_reconnect (w : World) :
  Timers_ok w →
  Timers_ok (match reconnectTimeout w with
             | Some h => set_reconnectTimeout None (clearTimeout h w)
             | None => w
             end).
Proof.
  intros H. destruct (reconnectTimeout w) as [h0|] eqn:Hr; [|done].
  intros h t Ht. simpl in *. apply lookup_delete_Some in Ht as [Hne Ht].
  specialize (H h t Ht). destruct (callback t); [congruence|done].
Qed.

Lemma Timers_ok_close (w : World) : Timers_ok w → Timers_ok (WSClient.close w).
Proof.
  intros H. unfold WSClient.close. destruct (ws w) as [k|]; [|done].
  set (w1 := set_ws None _).
  assert (H1 : Timers_ok w1) by (by apply (Timers_ok_frame w)).
  clearbody w1. by apply Timers_ok_cancel_reconnect.
Qed.

Lemma Timers_ok_open (w : World) : Timers_ok w → Timers_ok (WSClient.open w).
Proof.
  intros H. unfold WSClient.open. destruct (ws w); [done|].
  apply Timers_ok_cancel_reconnect. by apply (Timers_ok_frame w).
Qed.

Lemma Timers_ok_onClose (rnd : Q) (w : World) :
  Timers_ok w → Timers_ok (WSClient.onClose rnd w).
Proof.
  intros H. unfold WSClient.onClose. apply Timers_ok_retryConnection.
  change (monitorInterval (set_ws None w)) with (monitorInterval w).
  destruct (monitorInterval w) as [h0|] eqn:Hm; [|by apply (Timers_ok_frame w)].
  intros h t Ht. simpl in *. apply lookup_delete_Some in Ht as [Hne Ht].
  specialize (H h t Ht). destruct (callback t); [done|congruence].
Qed.

Lemma Timers_ok_onOpen (now : Z) (w : World) :
  Timers_ok w → Timers_ok (WSClient.onOpen now w).
Proof.
  intros H. unfold WSClient.onOpen.
  assert (H1 : Timers_ok (WSClient.monitorConnection
                (set_retryDelay 0 (set_lastPing (Some now) (set_lastConnected (Some now) w))))).
  { apply Timers_ok_monitorConnection. by apply (Timers_ok_frame w). }
  revert H1. generalize (WSClient.monitorConnection
    (set_retryDelay 0 (set_lastPing (Some now) (set_lastConnected (Some now) w)))).
  intros w1 H1. destruct (ws_open w1); [|done]. by apply (Timers_ok_frame w1).
Qed.

Lemma Timers_ok_monitor_fires (now : Z) (w : World) :
  Timers_ok w → Timers_ok (WSClient.monitor_fires now w).
Proof.
  intros H. unfold WSClient.monitor_fires. apply Timers_ok_monitorConnection.
  set (w1 := match ws_open w with Some k => send k "ping" PNone w | None => w end).
  assert (H1 : Timers_ok w1)
    by (subst w1; destruct (ws_open w); [by apply (Timers_ok_frame w)|done]).
  clearbody w1. destruct (_ && _); [|done].
  destruct (ws_open _); [|by apply (Timers_ok_frame w1)].
  apply Timers_ok_open, Timers_ok_close. by apply (Timers_ok_frame w1).
Qed.

Lemma Timers_ok_invoke l o d w : Timers_ok w → Timers_ok (invoke l o d w).
Proof.
  intros H. destruct l; simpl.
  - by apply Timers_ok_onOpen.
  - by apply Timers_ok_onClose.
  - apply (Timers_ok_frame w); [|done]. apply onMessage_untouched.
  - by apply Timers_ok_retryConnection.
  - apply (Timers_ok_frame w); [|done]. apply onMsg_untouched.
Qed.

Lemma Timers_ok_step o i w : Timers_ok w → Timers_ok (step o i w).
Proof.
  intros H.
  refine (step_preserves Timers_ok (λ _, True) _ _ _ _ _ _ _ _ _ _ o i w I H).
  - apply Timers_ok_open.
  - apply Timers_ok_close.
  - intros c x Hx. apply (Timers_ok_frame x); [|done]. apply join_untouched.
  - intros c x Hx. apply (Timers_ok_frame x); [|done]. apply leave_untouched.
  - intros t v x Hx. apply (Timers_ok_frame x); [|done]. apply filter_untouched.
  - intros k r x Hx. by apply (Timers_ok_frame x).
  - intros l o' d x _. apply Timers_ok_invoke.
  - intros o' h t x _ Hx Ht. pose proof (Hx h t Ht) as Hfield.
    destruct (callback t).
    + unfold WSClient.reconnect_fires.
      apply (Timers_ok_frame (set_reconnectTimeout None (set_timers (delete h (timers x)) x)));
        [apply setupConnection_untouched|].
      intros h' t' Ht'. simpl in *. apply lookup_delete_Some in Ht' as [Hne Ht'].
      specialize (Hx h' t' Ht'). destruct (callback t'); [congruence|done].
    + by apply Timers_ok_monitor_fires, Timers_ok_fired.
  - intros o' n prev token x _ Hx _.
    apply (Timers_ok_frame x); [|done].
    by destruct (onOpen_resume_untouched prev token (now o')
                   (set_suspended (delete n (suspended x)) x)) as (_ & _ & ->).
  - intros r c x Hx. by apply (Timers_ok_frame x).
Qed.

Lemma Timers_ok_run (tr : list (Oracle * Input)) (w : World) :
  Timers_ok w → Timers_ok (run tr w).
Proof.
  revert w. induction tr as [|[o i] tr IH]; intros w H; simpl; [done|].
  by apply IH, Timers_ok_step.
Qed.

(** X13.  In every world a run reaches from a new client, two pending
    timers with the same callback are the same timer: at most one reconnect
    attempt and at most one liveness tick are pending at any time. *)
Theorem timers_do_not_stack (replayMaxTime : Z) (tr : list (Oracle * Input)) :
  let w := run tr (WSClient.constructor replayMaxTime) in
  ∀ h1 t1 h2 t2,
    timers w !! h1 = Some t1 → timers w !! h2 = Some t2 →
    callback t1 = callback t2 → h1 = h2.
Proof.
  intros w.
  assert (H : Timers_ok w).
  { apply Timers_ok_run. intros h t Ht. simpl in Ht. by rewrite lookup_empty in Ht. }
  intros h1 t1 h2 t2 H1 H2 Hcb.
  pose proof (H h1 t1 H1) as F1. pose proof (H h2 t2 H2) as F2.
  rewrite Hcb in F1. destruct (callback t2); congruence.
Qed.

Lemma timers_do_not_stack_witness :
  let w := run failing_run (WSClient.constructor 300000) in
  timers w !! 2%nat = Some (mkTimer CbReconnect 8000)
  ∧ ∀ h t, timers w !! h = Some t → callback t = CbReconnect → h = 2%nat.
Proof.
  intros w.
  assert (H2 : timers w !! 2%nat = Some (mkTimer CbReconnect 8000))
    by (vm_compute; reflexivity).
  split; [exact H2|]. intros h t Ht Hcb.
  exact (timers_do_not_stack 300000 failing_run h t 2%nat (mkTimer CbReconnect 8000)
           Ht H2 Hcb).
Defined.

(** ** The listeners of a socket *)

Lemma remove_first_absent x ls : x ∉ ls → remove_first x ls = ls.
Proof.
  induction ls as [|y ls IH]; simpl; [done|].
  intros Hn. apply not_elem_of_cons in Hn as [Hxy Hn].
  destruct (decide (y = x)); [congruence|]. by rewrite IH.
Qed.

Lemma transient_not_lifecycle ms r :
  Forall is_transient ms → r ∈ lifecycle_listeners → r ∉ ms.
Proof.
  intros Hms Hr Hin. rewrite Forall_forall in Hms.
  destruct (Hms r Hin) as (a & p & ->).
  unfold lifecycle_listeners in Hr.
  repeat (apply elem_of_cons in Hr as [Hr|Hr]; [discriminate|]). inversion Hr.
Qed.

Lemma detached_shape ls :
  listener_shape ls →
  ∃ ms, Forall is_transient ms ∧ detached ls = ms.
Proof.
  intros (ms & Hms & [->| ->]); exists ms; (split; [done|]).
  - unfold detached, lifecycle_listeners. simpl.
    repeat (destruct (decide _) as [?|?]; [try discriminate|try done]); try done.
  - assert (H : ∀ r, r ∈ lifecycle_listeners → r ∉ ms)
      by (intros; by apply transient_not_lifecycle).
    unfold detached.
    rewrite (remove_first_absent (EvClose, LOnClose))
      by (apply H; unfold lifecycle_listeners; repeat constructor).
    rewrite (remove_first_absent (EvOpen, LOnOpen))
      by (apply H; unfold lifecycle_listeners; repeat constructor).
    rewrite (remove_first_absent (EvMessage, LOnMessage))
      by (apply H; unfold lifecycle_listeners; repeat constructor).
    apply remove_first_absent, H. unfold lifecycle_listeners. repeat constructor.
Qed.

Lemma setupConnection_sockets (w : World) :
  sockets (WSClient.setupConnection w) =
  <[next_socket w := mkSocket CONNECTING lifecycle_listeners]> (sockets w).
Proof.
  unfold WSClient.setupConnection, new_WebSocket, addEventListener, on_socket. simpl.
  rewrite !alter_insert_eq. reflexivity.
Qed.

Lemma close_sockets (w : World) :
  sockets (WSClient.close w) =
  match ws w with
  | Some k =>
      alter (λ s, mkSocket (if decide (readyState s = CLOSED) then CLOSED else CLOSING)
                    (detached (listeners s))) k (sockets w)
  | None => sockets w
  end.
Proof.
  unfold WSClient.close. destruct (ws w) as [k|]; [|done].
  set (w1 := set_ws None _).
  assert (H1 : sockets w1 =
    alter (λ s, mkSocket (if decide (readyState s = CLOSED) then CLOSED else CLOSING)
                  (detached (listeners s))) k (sockets w)).
  { subst w1. unfold sock_close, removeEventListener, on_socket. simpl.
    rewrite !alter_alter_eq. apply alter_ext. intros s _. reflexivity. }
  clearbody w1. by destruct (reconnectTimeout w1).
Qed.

Lemma shape_transient_only ms : Forall is_transient ms → listener_shape ms.
Proof. intros H. exists ms. auto. Qed.

Lemma shape_app_transient ls a p :
  listener_shape ls → listener_shape (ls ++ [(EvMessage, LOnMsg a p)]).
Proof.
  intros (ms & Hms & Hls). exists (ms ++ [(EvMessage, LOnMsg a p)]). split.
  - apply Forall_app. split; [done|]. constructor; [|done]. by exists a, p.
  - destruct Hls as [->| ->]; [left; by rewrite app_assoc|by right].
Qed.

Lemma shape_remove_transient ls a p :
  listener_shape ls → listener_shape (remove_first (EvMessage, LOnMsg a p) ls).
Proof.
  intros (ms & Hms & [->| ->]).
  - exists (remove_first (EvMessage, LOnMsg a p) ms).
    split; [by apply Forall_remove_first|]. left.
    unfold lifecycle_listeners. simpl.
    repeat (destruct (decide _) as [?|?]; [try discriminate|]). done.
  - exists (remove_first (EvMessage, LOnMsg a p) ms).
    split; [by apply Forall_remove_first|by right].
Qed.

Lemma Shape_ok_frame (w w' : World) : sockets w' = sockets w → Shape_ok w → Shape_ok w'.
Proof. unfold Shape_ok. by intros ->. Qed.

Lemma Shape_ok_on_socket (f : Socket → Socket) (k : nat) (w : World) :
  (∀ s, listener_shape (listeners s) → listener_shape (listeners (f s))) →
  Shape_ok w → Shape_ok (on_socket f k w).
Proof.
  intros Hf H k' s Hs. simpl in Hs.
  apply lookup_alter_Some in Hs as [(_ & s0 & Hs0 & ->)|[_ Hs]].
  - apply Hf. by apply (H k').
  - by apply (H k').
Qed.

Lemma Shape_ok_setupConnection (w : World) :
  Shape_ok w → Shape_ok (WSClient.setupConnection w).
Proof.
  intros H k s Hs. rewrite setupConnection_sockets in Hs.
  apply lookup_insert_Some in Hs as [[_ <-]|[_ Hs]]; [|by apply (H k)].
  exists []. split; [constructor|]. left. by rewrite app_nil_r.
Qed.

Lemma Shape_ok_close (w : World) : Shape_ok w → Shape_ok (WSClient.close w).
Proof.
  intros H k s Hs. rewrite close_sockets in Hs.
  destruct (ws w) as [k0|]; [|by apply (H k)].
  apply lookup_alter_Some in Hs as [(_ & s0 & Hs0 & ->)|[_ Hs]]; [|by apply (H k)].
  simpl. destruct (detached_shape (listeners s0)) as (ms & Hms & ->); [by apply (H k)|].
  by apply shape_transient_only.
Qed.

Lemma Shape_ok_open (w : World) : Shape_ok w → Shape_ok (WSClient.open w).
Proof.
  intros H. unfold WSClient.open. destruct (ws w); [done|].
  pose proof (Shape_ok_setupConnection w H) as H1.
  generalize dependent (WSClient.setupConnection w). intros x Hx.
  destruct (reconnectTimeout x); [|done]. by apply (Shape_ok_frame x).
Qed.

Lemma Shape_ok_monitor_fires (now : Z) (w : World) :
  Shape_ok w → Shape_ok (WSClient.monitor_fires now w).
Proof.
  intros H. unfold WSClient.monitor_fires.
  set (w1 := match ws_open w with Some k => send k "ping" PNone w | None => w end).
  assert (H1 : Shape_ok w1)
    by (subst w1; destruct (ws_open w); [by apply (Shape_ok_frame w)|done]).
  clearbody w1.
  set (w2 := if _ && _ then _ else _).
  assert (H2 : Shape_ok w2).
  { subst w2. destruct (_ && _); [|done].
    destruct (ws_open _); [|by apply (Shape_ok_frame w1)].
    apply Shape_ok_open, Shape_ok_close. by apply (Shape_ok_frame w1). }
  clearbody w2. apply (Shape_ok_frame w2); [|done]. apply monitorConnection_untouched.
Qed.

Lemma Shape_ok_onMsg a prev now d w : Shape_ok w → Shape_ok (WSClient.onMsg a prev now d w).
Proof.
  intros H. unfold WSClient.onMsg. destruct (parsed d); [|done].
  destruct (bool_decide _); [|done].
  set (w1 := match ws w with Some k => _ | None => w end).
  assert (H1 : Shape_ok w1).
  { subst w1. destruct (ws w); [|done]. apply Shape_ok_on_socket; [|done].
    intros s. apply shape_remove_transient. }
  clearbody w1. apply (Shape_ok_frame w1); [|done]. apply joinRoomsFilter_untouched.
Qed.

Lemma Shape_ok_onOpen_resume prev token now w :
  Shape_ok w → Shape_ok (WSClient.onOpen_resume prev token now w).
Proof.
  intros H. unfold WSClient.onOpen_resume. destruct (truthy_string token).
  - simpl. destruct (ws w) as [k|]; [|by apply (Shape_ok_frame w)].
    destruct (readyState <$> _) as [[]|]; try (by apply (Shape_ok_frame w));
      (apply Shape_ok_on_socket; [intros s; apply shape_app_transient|]);
      by apply (Shape_ok_frame w).
  - apply (Shape_ok_frame w); [|done]. apply joinRoomsFilter_untouched.
Qed.

Lemma Shape_ok_invoke l o d w : Shape_ok w → Shape_ok (invoke l o d w).
Proof.
  intros H. destruct l; simpl.
  - apply (Shape_ok_frame w); [|done]. apply onOpen_untouched.
  - apply (Shape_ok_frame w); [|done]. apply onClose_untouched.
  - apply (Shape_ok_frame w); [|done]. apply onMessage_untouched.
  - apply (Shape_ok_frame w); [|done]. apply retryConnection_untouched.
  - by apply Shape_ok_onMsg.
Qed.

Lemma Shape_ok_step o i w : Shape_ok w → Shape_ok (step o i w).
Proof.
  intros H.
  refine (step_preserves Shape_ok (λ _, True) _ _ _ _ _ _ _ _ _ _ o i w I H).
  - apply Shape_ok_open.
  - apply Shape_ok_close.
  - intros c x Hx. apply (Shape_ok_frame x); [|done]. apply join_untouched.
  - intros c x Hx. apply (Shape_ok_frame x); [|done]. apply leave_untouched.
  - intros t v x Hx. apply (Shape_ok_frame x); [|done]. apply filter_untouched.
  - intros k r x Hx. by apply Shape_ok_on_socket.
  - intros l o' d x _. apply Shape_ok_invoke.
  - intros o' h t x _ Hx _. destruct (callback t).
    + apply Shape_ok_setupConnection. by apply (Shape_ok_frame x).
    + apply Shape_ok_monitor_fires. by apply (Shape_ok_frame x).
  - intros o' n prev token x _ Hx _. apply Shape_ok_onOpen_resume.
    by apply (Shape_ok_frame x).
  - intros r c x Hx. by apply (Shape_ok_frame x).
Qed.

Lemma Shape_ok_run tr w : Shape_ok w → Shape_ok (run tr w).
Proof.
  revert w. induction tr as [|[o i] tr IH]; intros w H; simpl; [done|].
  by apply IH, Shape_ok_step.
Qed.

Lemma Shape_ok_constructor rmt : Shape_ok (WSClient.constructor rmt).
Proof. intros k s Hs. simpl in Hs. by rewrite lookup_empty in Hs. Qed.

(** ** The last-seen id *)

Lemma Delivered_ok_frame (w w' : World) :
  tracking w' = tracking w → Delivered_ok w → Delivered_ok w'.
Proof. unfold tracking, Delivered_ok. by intros [= -> ->]. Qed.

Lemma Delivered_ok_onMessage now d w :
  Delivered_ok w → Delivered_ok (WSClient.onMessage now d w).
Proof.
  intros H. unfold WSClient.onMessage.
  destruct (is_string d); [|by apply (Delivered_ok_frame w)].
  destruct (parsed d) as [msg|]; [|by apply (Delivered_ok_frame w)].
  destruct (truthy_string (msg_i msg)) eqn:Ht,
    (bool_decide (msg_t msg = Some "error")) eqn:He,
    (bool_decide (msg_t msg = Some "ack")) eqn:Ha; simpl;
    try (by apply (Delivered_ok_frame w));
    intros m Hm; simpl in *.
  - destruct (H m Hm) as (? & x & Hx & ?). split; [done|]. exists x. split; [|done].
    apply elem_of_app. by left.
  - rewrite Hm in Ht. simpl in Ht. apply negb_true_iff, bool_decide_eq_false in Ht.
    split; [done|]. exists msg.
    split; [apply elem_of_app; right; by apply list_elem_of_singleton|].
    unfold is_ack, is_error. done.
  - destruct (H m Hm) as (? & x & Hx & ?). split; [done|]. exists x. split; [|done].
    apply elem_of_app. by left.
  - destruct (H m Hm) as (? & x & Hx & ?). split; [done|]. exists x. split; [|done].
    apply elem_of_app. by left.
Qed.

Lemma Delivered_ok_step o i w : Delivered_ok w → Delivered_ok (step o i w).
Proof.
  intros H.
  refine (step_preserves Delivered_ok (λ _, True) _ _ _ _ _ _ _ _ _ _ o i w I H).
  - intros x Hx. apply (Delivered_ok_frame x); [|done]. apply open_untouched.
  - intros x Hx. apply (Delivered_ok_frame x); [|done]. apply close_untouched.
  - intros c x Hx. apply (Delivered_ok_frame x); [|done]. apply join_untouched.
  - intros c x Hx. apply (Delivered_ok_frame x); [|done]. apply leave_untouched.
  - intros t v x Hx. apply (Delivered_ok_frame x); [|done]. apply filter_untouched.
  - intros k r x Hx. by apply (Delivered_ok_frame x).
  - intros l o' d x _ Hx. destruct l; simpl.
    + apply (Delivered_ok_frame x); [|done]. apply onOpen_untouched.
    + apply (Delivered_ok_frame x); [|done]. apply onClose_untouched.
    + by apply Delivered_ok_onMessage.
    + apply (Delivered_ok_frame x); [|done]. apply retryConnection_untouched.
    + apply (Delivered_ok_frame x); [|done]. apply onMsg_untouched.
  - intros o' h t x _ Hx _. destruct (callback t).
    + apply (Delivered_ok_frame x); [|done].
      apply (setupConnection_untouched
               (set_reconnectTimeout None (set_timers (delete h (timers x)) x))).
    + apply (Delivered_ok_frame x); [|done].
      apply (monitor_fires_untouched (now o') (set_timers (delete h (timers x)) x)).
  - intros o' n prev token x _ Hx _. apply (Delivered_ok_frame x); [|done].
    apply (onOpen_resume_untouched prev token (now o')
             (set_suspended (delete n (suspended x)) x)).
  - intros r c x Hx. by apply (Delivered_ok_frame x).
Qed.

Lemma Delivered_ok_run tr w : Delivered_ok w → Delivered_ok (run tr w).
Proof.
  revert w. induction tr as [|[o i] tr IH]; intros w H; simpl; [done|].
  by apply IH, Delivered_ok_step.
Qed.

(** X14.  In every world a run reaches from a new client, a last-seen id
    is not empty and is the id of an envelope that was emitted to the
    subscriber and is neither an [ack] nor an [error]. *)
Theorem last_seen_was_delivered (replayMaxTime : Z) (tr : list (Oracle * Input)) (m : string) :
  let w := run tr (WSClient.constructor replayMaxTime) in
  lastMessage w = Some m →
  m ≠ EmptyString
  ∧ ∃ msg, msg ∈ emitted w ∧ msg_i msg = Some m
           ∧ is_ack msg = false ∧ is_error msg = false.
Proof.
  intros w. apply Delivered_ok_run. intros m' Hm'. discriminate.
Qed.

Lemma last_seen_was_delivered_witness :
  let w := run reconnecting_run (WSClient.constructor 300000) in
  lastMessage w = Some "m1"
  ∧ ∃ msg, msg ∈ emitted w ∧ msg_i msg = Some "m1"
           ∧ is_ack msg = false ∧ is_error msg = false.
Proof.
  intros w.
  assert (Hm : lastMessage w = Some "m1") by (vm_compute; reflexivity).
  split; [exact Hm|].
  exact (proj2 (last_seen_was_delivered 300000 reconnecting_run "m1" Hm)).
Defined.

(** ** After an explicit close *)





(** ** From the socket's open event to the resync *)

Lemma emit_open_lifecycle k o d w :
  sockets w !! k = Some (mkSocket OPEN lifecycle_listeners) →
  emit k EvOpen o d w = WSClient.onOpen (now o) w.
Proof. intros Hs. unfold emit. rewrite Hs. reflexivity. Qed.

(** X16.  From the open event of the handle's socket to the resync, when
    the token provider answers [undefined]: the open event records the
    time as connection and activity time, resets the delay, arms the
    liveness timer and parks the rest of [onOpen] with the previous
    connection time, sending nothing; the resumption sends the resync
    frames and, if due against that previous time, the replay frame. *)
Theorem connect_sequence (o1 o2 : Oracle) (k : nat) (w : World) :
  ws w = Some k →
  sockets w !! k = Some (mkSocket CONNECTING lifecycle_listeners) →
  let w1 := step o1 (Sock_open k) w in
  let w2 := step o2 (Token_resolves (length (suspended w)) None) w1 in
  (suspended w1 = suspended w ++ [lastConnected w]
   ∧ lastConnected w1 = Some (now o1) ∧ lastPing w1 = Some (now o1)
   ∧ retryDelay w1 = 0 ∧ wire w1 = wire w
   ∧ timers w1 !! next_timer w = Some (mkTimer CbMonitor 30000))
  ∧ wire w2 = wire w ++ resync_frames k w
                     ++ replay_part (lastConnected w) (now o2) k w
  ∧ suspended w2 = suspended w.
Proof.
  intros Hws Hs w1 w2.
  set (w0 := set_readyState k OPEN w).
  assert (Hs0 : sockets w0 !! k = Some (mkSocket OPEN lifecycle_listeners)).
  { subst w0. unfold set_readyState, on_socket. simpl. by rewrite lookup_alter_eq, Hs. }
  assert (Hw1 : w1 = WSClient.onOpen (now o1) w0).
  { subst w1. simpl. rewrite Hs. simpl. by apply emit_open_lifecycle. }
  set (m := WSClient.monitorConnection
              (set_retryDelay 0 (set_lastPing (Some (now o1))
                 (set_lastConnected (Some (now o1)) w0)))).
  assert (Hm : ws m = Some k ∧ sockets m = sockets w0 ∧ suspended m = suspended w
               ∧ lastConnected m = Some (now o1) ∧ lastPing m = Some (now o1)
               ∧ retryDelay m = 0 ∧ wire m = wire w
               ∧ timers m !! next_timer w = Some (mkTimer CbMonitor 30000)
               ∧ lastMessage m = lastMessage w ∧ replayMaxTime m = replayMaxTime w
               ∧ heap m = heap w ∧ uuid_seed m = uuid_seed w
               ∧ filters m = filters w ∧ channels m = channels w).
  { subst m. unfold WSClient.monitorConnection. simpl.
    destruct (monitorInterval w); simpl; rewrite Hws, lookup_insert_eq; done. }
  destruct Hm as (M1 & M2 & M3 & M4 & M5 & M6 & M7 & M8 & M9 & M10 & M11 & M12 & M13 & M14).
  assert (Hopen : ws_open m = Some k).
  { unfold ws_open. rewrite M1, M2, Hs0. reflexivity. }
  assert (Hw1' : w1 = set_suspended (suspended m ++ [lastConnected w]) m).
  { rewrite Hw1. unfold WSClient.onOpen. fold m. by rewrite Hopen. }
  clearbody m. clear Hw1. subst w2. rewrite Hw1'. clear Hw1'. clearbody w1.
  split; [simpl; by rewrite M3|].
  unfold step.
  change (suspended (set_suspended (suspended m ++ [lastConnected w]) m))
    with (suspended m ++ [lastConnected w]).
  rewrite M3, list_lookup_middle, delete_middle by done.
  unfold WSClient.onOpen_resume. simpl.
  set (x := set_suspended _ _).
  assert (Hx : ws_open x = Some k) by exact Hopen.
  rewrite (joinRoomsFilter_wire (lastConnected w) (now o2) k x Hx).
  assert (Hsusp : suspended (WSClient.joinRoomsFilter (lastConnected w) (now o2) x)
                  = suspended x).
  { unfold WSClient.joinRoomsFilter. rewrite Hx, send_filters. simpl.
    by destruct (_ && _ && _). }
  rewrite Hsusp. split; [|subst x; simpl; apply app_nil_r].
  unfold resync_frames, join_frame, replay_part, replay_frame. subst x. simpl.
  by rewrite M7, M9, M10, M11, M12, M13, M14.
Qed.

Lemma connect_sequence_witness :
  let w1 := step (at_time 1250) (Sock_open 0) opening_world in
  let w2 := step (at_time 1251) (Token_resolves 0 None) w1 in
  lastConnected w1 = Some 1250
  ∧ wire w2 =
    [ (0%nat, mkFrame "uuid-0" "filter" (PFilter "ACTIVITY" (Some playerMessages)));
      (0%nat, mkFrame "uuid-1" "join" (PChannels ["server:events:1"])) ].
Proof.
  intros w1 w2.
  destruct (connect_sequence (at_time 1250) (at_time 1251) 0 opening_world)
    as ((_ & Hlc & _) & Hwire & _).
  - vm_compute. reflexivity.
  - vm_compute. reflexivity.
  - split; [exact Hlc|]. subst w2 w1.
    change (length (suspended opening_world)) with 0%nat in Hwire.
    rewrite Hwire. vm_compute. reflexivity.
Defined.

(** ** The delay along a run *)

Lemma shape_listener_event ls r :
  listener_shape ls → r ∈ ls → fst r ≠ EvOpen → snd r ≠ LOnOpen.
Proof.
  intros (ms & Hms & Hls) Hr Hev.
  assert (Hcases : r ∈ lifecycle_listeners ∨ r ∈ ms).
  { destruct Hls as [->| ->]; [by apply elem_of_app|by right]. }
  destruct Hcases as [Hr'|Hr'].
  - unfold lifecycle_listeners in Hr'.
    repeat (apply elem_of_cons in Hr' as [->|Hr']; [simpl in *; congruence|]).
    inversion Hr'.
  - rewrite Forall_forall in Hms. destruct (Hms r Hr') as (a & p & ->). done.
Qed.

Lemma invoke_retryDelay_mono l o d w :
  l ≠ LOnOpen → valid_oracle o → Inv w →
  retryDelay w ≤ retryDelay (invoke l o d w).
Proof.
  intros Hl [_ Hrnd] Hinv. pose proof (inv_retryDelay w Hinv) as Hd.
  pose proof (jitter_bounds (random o) Hrnd) as Hj.
  destruct (retryDelay_frame o w) as (_ & _ & _ & _ & _ & Hmsg & Hauth & _).
  destruct l; lazy beta iota delta [invoke]; [done| | | |].
  - destruct (onClose_spec (random o) w) as (_ & _ & _ & _ & _ & ->). lia.
  - rewrite Hmsg. lia.
  - destruct (retryConnection_spec (random o) w) as (_ & _ & _ & _ & _ & ->). lia.
  - rewrite Hauth. lia.
Qed.

Lemma emit_retryDelay_mono k ev o d w :
  ev ≠ EvOpen → valid_oracle o → Inv w → Shape_ok w →
  retryDelay w ≤ retryDelay (emit k ev o d w).
Proof.
  intros Hev Ho Hinv Hshape. unfold emit.
  destruct (sockets w !! k) as [s|] eqn:Hs; [|lia].
  pose proof (Hshape k s Hs) as Hls.
  assert (Hall : Forall (λ r, fst r = ev → snd r ≠ LOnOpen) (listeners s)).
  { apply Forall_forall. intros r Hr Hfst.
    apply (shape_listener_event (listeners s) r Hls Hr). congruence. }
  clear Hs Hls Hshape. revert w Hinv.
  induction Hall as [|r ls Hr Hall IH]; intros w Hinv; simpl; [lia|].
  destruct (decide (fst r = ev)) as [Hfst|]; [|by apply IH].
  etrans; [apply (invoke_retryDelay_mono (snd r) o d w); auto|].
  apply IH. by apply Inv_invoke.
Qed.

Lemma step_retryDelay_mono o i w :
  not_open (o, i) → valid_oracle o → Inv w → Shape_ok w →
  retryDelay w ≤ retryDelay (step o i w).
Proof.
  intros Hi Ho Hinv Hshape.
  destruct (retryDelay_frame o w) as (Hj & Hl & Hf & Hc & Hop & _).
  destruct i; simpl.
  - rewrite Hop. lia.
  - rewrite Hc. lia.
  - rewrite Hj. lia.
  - rewrite Hl. lia.
  - rewrite Hf. lia.
  - by destruct (Hi k).
  - destruct (readyState <$> _) as [[]|]; try lia;
      (etrans; [|apply emit_retryDelay_mono; try done;
                 [by apply Inv_set_readyState|by apply Shape_ok_on_socket]]);
      simpl; lia.
  - destruct (readyState <$> _) as [[]|]; try lia;
      (etrans; [|apply emit_retryDelay_mono; try done;
                 [by apply Inv_set_readyState|by apply Shape_ok_on_socket]]);
      simpl; lia.
  - destruct (readyState <$> _) as [[]|]; try lia.
    by apply emit_retryDelay_mono.
  - destruct (timers w !! h) as [t|]; [|lia]. destruct (callback t).
    + simpl. lia.
    + destruct (retryDelay_frame o (set_timers (delete h (timers w)) w))
        as (_ & _ & _ & _ & _ & _ & _ & _ & _ & ->). simpl. lia.
  - destruct (suspended w !! n) as [prev|]; [|lia].
    destruct (retryDelay_frame o (set_suspended (delete n (suspended w)) w))
      as (_ & _ & _ & _ & _ & _ & _ & -> & _). simpl. lia.
  - simpl. lia.
Qed.

(** X17.  From any reachable world, along any run with no open event of
    a socket, the reconnect delay never decreases, whatever else happens
    (calls, messages, timers, failures); it stays between 0 and 60. *)
Theorem delay_grows_until_open (replayMaxTime : Z) (tr0 tr : list (Oracle * Input)) :
  valid_trace tr0 → valid_trace tr → Forall not_open tr →
  let w0 := run tr0 (WSClient.constructor replayMaxTime) in
  0 ≤ retryDelay w0 ∧ retryDelay w0 ≤ retryDelay (run tr w0)
  ∧ retryDelay (run tr w0) ≤ 60.
Proof.
  intros H0 Htr Hno w0.
  assert (Hinv : Inv w0) by (by apply reachable_Inv).
  assert (Hshape : Shape_ok w0) by (apply Shape_ok_run, Shape_ok_constructor).
  clearbody w0.
  assert (Hend : Inv (run tr w0)) by (by apply Inv_run).
  split; [apply Hinv|]. split; [|apply Hend]. clear Hend.
  revert w0 Hinv Hshape.
  induction tr as [|[o i] tr IH]; intros w0 Hinv Hshape; simpl; [lia|].
  apply Forall_cons in Htr as [Ho Htr]. apply Forall_cons in Hno as [Hi Hno].
  etrans; [apply (step_retryDelay_mono o i w0); done|].
  apply IH; try done; [by apply Inv_step|by apply Shape_ok_step].
Qed.

Lemma delay_grows_until_open_witness :
  let w0 := run session_start (WSClient.constructor 300000) in
  let tr := [ (at_time 5000, Sock_error 0); (at_time 5000, Sock_close 0);
              (at_time 13000, Timer_fires 2) ] in
  retryDelay w0 = 0 ∧ retryDelay (run tr w0) = 16
  ∧ retryDelay w0 ≤ retryDelay (run tr w0).
Proof.
  intros w0 tr.
  destruct (delay_grows_until_open 300000 session_start tr) as (_ & H & _).
  - repeat constructor; simpl; try discriminate; unfold Qle, Qlt; simpl; lia.
  - repeat constructor; simpl; try discriminate; unfold Qle, Qlt; simpl; lia.
  - repeat constructor; intros k; simpl; discriminate.
  - split; [vm_compute; reflexivity|]. split; [vm_compute; reflexivity|exact H].
Defined.
